(** * Cee-Lo scoreboard: the dice rules, the unique-outcome allocation,
      the leaderboard and the round state of [server.js]

    The development embeds the functions of [server.js] shallowly:
    - a hand is the object that [rollCeeLo] returns, a record with the
      fields [dice], [label], [type] and the optional [triple] and [point];
    - [state.results] is a finite map from names to hands, [state.friends] a
      list of names, the set [used] a finite set of key strings;
    - [Math.random] is a sequence of draws read through an index, and the
      unbounded [while(true)] of [rollCeeLo] takes fuel;
    - a request handler is a function from the state to a response and the
      next state; [saveToDisk] writes the state out and does not change it.

    The values of [state.results] are hands, as the handlers store them, and
    a name is looked up among the entries of the map. That is what
    [results[name]] reads for every name but those of the properties that a
    JavaScript object inherits from [Object.prototype]
    ([Object_prototype_names]); the statements that depend on what is read
    under such a name are made for plain names ([plain_name]). The
    host functions [String.prototype.trim] and [String.prototype.localeCompare]
    are variables of the sections that need them. *)

From Stdlib Require Import ZArith String Ascii List Lia Permutation.
From Stdlib Require OrdersEx.
From stdpp Require Import gmap strings pretty sorting.

Local Open Scope string_scope.
Local Open Scope Z_scope.

(** ** JavaScript values the program handles *)

(** A number, as far as the program computes with one: an integer, or the
    [NaN] that arithmetic on a missing field gives. *)
Inductive num : Type :=
  | NaN
  | Num (z : Z).

Definition num_of_field (f : option Z) : num :=
  match f with
  | Some z => Num z
  | None => NaN
  end.

Definition num_add (x y : num) : num :=
  match x, y with
  | Num a, Num b => Num (a + b)
  | _, _ => NaN
  end.

Definition num_sub (x y : num) : num :=
  match x, y with
  | Num a, Num b => Num (a - b)
  | _, _ => NaN
  end.

(** [x === y] on numbers: [NaN] is equal to nothing, itself included. *)
Definition num_strict_eq (x y : num) : bool :=
  match x, y with
  | Num a, Num b => a =? b
  | _, _ => false
  end.

(** [`${f}`] for a field that holds an integer or is missing. *)
Definition template_field (f : option Z) : string :=
  match f with
  | Some z => pretty z
  | None => "undefined"
  end.

(** [Array.prototype.sort(cmp)]: the sort is stable, and for a consistent
    comparator the result is the sorted permutation of the array, which a
    stable insertion sort computes: [x] moves behind [y] only when
    [cmp x y > 0]. *)
Section JsSort.
Context {A : Type} (cmp : A → A → Z).

Fixpoint sort_insert (x : A) (l : list A) : list A :=
  match l with
  | [] => [x]
  | y :: l' => if cmp x y >? 0 then y :: sort_insert x l' else x :: y :: l'
  end.

Fixpoint js_sort (l : list A) : list A :=
  match l with
  | [] => []
  | x :: l' => sort_insert x (js_sort l')
  end.
End JsSort.

(** ** Cee Lo logic *)

(** The hand object. [triple] and [point] are present only in the hands of
    that type. *)
Record Hand : Type := mkHand {
  dice : list Z;
  label : string;
  type : string;
  triple : option Z;
  point : option Z
}.

(** The source of randomness: [rnd i] is [Math.floor(Math.random()*6)] of the
    [i]-th call of [Math.random], a value of 0..5 in a run of the program. *)
Definition Random : Type := nat → Z.

Definition in_range (rnd : Random) : Prop := ∀ i, 0 ≤ rnd i < 6.

(** [d6()], reading draw [i]. *)
Definition d6 (rnd : Random) (i : nat) : Z := 1 + rnd i.

(** The six tests of one pass through the loop of [rollCeeLo], on the sorted
    dice [d]: the hand that the pass returns, or [None] when no test matches
    and the loop goes round again. *)
Definition classify (d : list Z) : option Hand :=
  match d with
  | [a; b; c] =>
      if (a =? 4) && (b =? 5) && (c =? 6) then
        Some (mkHand d "4-5-6 (auto win)" "456" None None)
      else if (a =? 1) && (b =? 2) && (c =? 3) then
        Some (mkHand d "1-2-3 (auto loss)" "123" None None)
      else if (a =? b) && (b =? c) then
        Some (mkHand d ("Triple " +:+ pretty a) "triple" (Some a) None)
      else if (a =? b) && negb (b =? c) then
        Some (mkHand d ("Point " +:+ pretty c) "point" None (Some c))
      else if (b =? c) && negb (a =? b) then
        Some (mkHand d ("Point " +:+ pretty a) "point" None (Some a))
      else if (a =? c) && negb (b =? a) then
        Some (mkHand d ("Point " +:+ pretty b) "point" None (Some b))
      else None
  | _ => None
  end.

(** [[x,y,z].sort((a,b)=>a-b)] *)
Definition sort_dice (x y z : Z) : list Z :=
  js_sort (λ a b, a - b) [x; y; z].

(** What one pass of the loop makes of the three dice [x], [y], [z]. *)
Definition classify_dice (x y z : Z) : option Hand :=
  classify (sort_dice x y z).

(** [rollCeeLo()], reading the draws from index [i] on: the hand and the
    index of the next unread draw; [None] when the fuel runs out before a
    pass returns. *)
Fixpoint rollCeeLo (fuel : nat) (rnd : Random) (i : nat) : option (Hand * nat) :=
  match fuel with
  | O => None
  | S fuel' =>
      match classify_dice (d6 rnd i) (d6 rnd (i + 1)) (d6 rnd (i + 2)) with
      | Some h => Some (h, (i + 3)%nat)
      | None => rollCeeLo fuel' rnd (i + 3)%nat
      end
  end.

(** [rankScore(h)]; [h] is a hand or [null]. *)
Definition rankScore (h : option Hand) : num :=
  match h with
  | None => Num (-1)
  | Some h =>
      if String.eqb (type h) "456" then Num 400
      else if String.eqb (type h) "triple" then num_add (Num 300) (num_of_field (triple h))
      else if String.eqb (type h) "point" then num_add (Num 100) (num_of_field (point h))
      else if String.eqb (type h) "123" then Num 0
      else Num (-1)
  end.

(** ** Unique-outcome enforcement *)

(** [outcomeKey(h)] *)
Definition outcomeKey (h : option Hand) : string :=
  match h with
  | None => ""
  | Some h =>
      if String.eqb (type h) "456" || String.eqb (type h) "123" then type h
      else if String.eqb (type h) "triple" then "triple:" +:+ template_field (triple h)
      else if String.eqb (type h) "point" then "point:" +:+ template_field (point h)
      else label h
  end.

(** 4-5-6, 1-2-3, six triples, six points *)
Definition MAX_UNIQUE : nat := 14.

(** ** The round state *)

Record State : Type := mkState {
  friends : list string;
  results : gmap string Hand;
  updatedAt : string
}.

(** [new Set(Object.values(results).map(outcomeKey))] *)
Definition used_keys (results : gmap string Hand) : gset string :=
  list_to_set (map (λ h, outcomeKey (Some h)) (map snd (map_to_list results))).

(** What a handler sends: [res.status(code).json({error})], or the body of
    [res.json]. *)
Inductive response (A : Type) : Type :=
  | Fail (status : Z) (error : string)
  | Ok (body : A).
Arguments Fail {A} status error.
Arguments Ok {A} body.

(** A call that returns a value or throws. *)
Inductive completion (A : Type) : Type :=
  | Returns (a : A)
  | Throws (e : string).
Arguments Returns {A} a.
Arguments Throws {A} e.

(** ** The leaderboard *)

(** [{ name, hand }] and [{ ...e, score }] *)
Record Entry : Type := mkEntry {
  name : string;
  hand : option Hand
}.

Record Scored : Type := mkScored {
  entry :> Entry;
  score : num
}.

(** [{ ready:false }] and [{ ready:true, leaders, topScore }] *)
Inductive Winner : Type :=
  | NotReady
  | Ready (leaders : list Scored) (topScore : num).

(** How the do-while of the roll handler ends: with a hand whose key is
    free, or past the cap on the tries. *)
Inductive Allocation : Type :=
  | Accepted (hand : Hand) (key : string)
  | Exceeded.

(** [do { hand = rollCeeLo(); key = outcomeKey(hand); tries++;
          if (tries > 20000) return ...500... } while (used.has(key))],
    entered with [tries] tries made and draw [i] the next to read. The
    result is how the loop ends, the next draw to read and the final value of
    [tries], the number of calls of [rollCeeLo] when the loop is entered with
    [tries = 0]; [None] when the fuel runs out. *)
Fixpoint allocate (fuel : nat) (rnd : Random) (used : gset string)
    (i : nat) (tries : Z) : option (Allocation * nat * Z) :=
  match fuel with
  | O => None
  | S fuel' =>
      match rollCeeLo fuel rnd i with
      | None => None
      | Some (hand, i') =>
          let key := outcomeKey (Some hand) in
          let tries := tries + 1 in
          if tries >? 20000 then Some (Exceeded, i', tries)
          else if bool_decide (key ∈ used) then allocate fuel' rnd used i' tries
          else Some (Accepted hand key, i', tries)
      end
  end.

(** [friends.filter(n => (seen.has(n) ? false : (seen.add(n), true)))] *)
Fixpoint filter_unseen (seen : gset string) (l : list string) : list string :=
  match l with
  | [] => []
  | n :: l' =>
      if bool_decide (n ∈ seen) then filter_unseen seen l'
      else n :: filter_unseen ({[n]} ∪ seen) l'
  end.

(** [for (const n of friends) { if (state.results[n]) newResults[n] = state.results[n]; }] *)
Definition keep_results (results : gmap string Hand) (names : list string)
    : gmap string Hand :=
  foldl (λ newResults n,
           match results !! n with
           | Some h => <[n := h]> newResults
           | None => newResults
           end) ∅ names.

Section Server.
(** The host's string functions. *)
Variable trim : string → string.
Variable localeCompare : string → string → Z.

(** [(A,B) => B.score-A.score || A.name.localeCompare(B.name)] *)
Definition by_score_then_name (A B : Scored) : Z :=
  match num_sub (score B) (score A) with
  | Num z => if z =? 0 then localeCompare (name A) (name B) else z
  | NaN => localeCompare (name A) (name B)
  end.

(** [computeLeaders(results)], with the global [state] it reads. *)
Definition computeLeaders (state : State) (results : gmap string Hand)
    : completion Winner :=
  let entries := map (λ name, mkEntry name (results !! name)) (friends state) in
  let rolled := filter (λ e, is_Some (hand e)) entries in
  if negb (length rolled =? length (friends state))%nat then Returns NotReady
  else
    let withScores :=
      js_sort by_score_then_name
        (map (λ e, mkScored e (rankScore (hand e))) rolled) in
    match withScores with
    | [] => Throws "TypeError"
    | top :: _ =>
        let topScore := score top in
        let leaders := filter (λ e, num_strict_eq (score e) topScore) withScores in
        Returns (Ready leaders topScore)
    end.

(** The body of a successful roll: [{ ok:true, hand, updatedAt, winner }]. *)
Record RollBody : Type := mkRollBody {
  rb_hand : Hand;
  rb_updatedAt : string;
  rb_winner : Winner
}.

(** [app.post("/api/roll")]. [body_name] is [req.body.name] when the
    request has one, [now] the time stamp of the request, [i] the next
    draw to read. The handler gives the response (or throws), the next
    state and the next draw; [None] when the fuel runs out. *)
Definition roll (body_name : option string) (now : string) (fuel : nat)
    (rnd : Random) (i : nat) (state : State)
    : option (completion (response RollBody) * State * nat) :=
  let name := trim (default "" body_name) in
  if negb (bool_decide (name ∈ friends state)) then
    Some (Returns (Fail 400 "Name not in league"), state, i)
  else if bool_decide (is_Some (results state !! name)) then
    Some (Returns (Fail 409 "Already rolled"), state, i)
  else
    let used := used_keys (results state) in
    if (MAX_UNIQUE <=? size used)%nat then
      Some (Returns (Fail 409 "All unique outcomes exhausted"), state, i)
    else
      match allocate fuel rnd used i 0 with
      | None => None
      | Some (Exceeded, i', _) =>
          Some (Returns (Fail 500 "Exceeded attempts for unique outcome"), state, i')
      | Some (Accepted hand key, i', _) =>
          let state' := mkState (friends state) (<[name := hand]> (results state)) now in
          match computeLeaders state' (results state') with
          | Throws e => Some (Throws e, state', i')
          | Returns winner =>
              Some (Returns (Ok (mkRollBody hand now winner)), state', i')
          end
      end.

(** [friends.map(s => String(s).trim()).filter(Boolean)] and then the
    filter that keeps the first of equal names, on the list of the
    [String(s)]. *)
Definition clean_names (friends0 : list string) : list string :=
  filter_unseen ∅ (filter (λ s, s ≠ "") (map trim friends0)).

(** The body of a successful roster edit: [{ ok:true, friends, updatedAt }]. *)
Record NamesBody : Type := mkNamesBody {
  nb_friends : list string;
  nb_updatedAt : string
}.

(** [app.post("/api/admin/set-names")] for an authorized request.
    [body_friends] is [None] when [req.body.friends] is not an array, and
    else the list of [String(s)] for its elements [s]. *)
Definition set_names (body_friends : option (list string)) (now : string)
    (state : State) : response NamesBody * State :=
  match body_friends with
  | None => (Fail 400 "friends must be an array", state)
  | Some friends0 =>
      let friends1 := clean_names friends0 in
      if (length friends1 =? 0)%nat then (Fail 400 "Need at least one name", state)
      else
        let newResults := keep_results (results state) friends1 in
        (Ok (mkNamesBody friends1 now), mkState friends1 newResults now)
  end.

(** [app.post("/api/admin/reset")] for an authorized request. *)
Definition admin_reset (now : string) (state : State) : response string * State :=
  (Ok now, mkState (friends state) ∅ now).
End Server.

(** ** The invariant of the round *)

(** No two entries of the results hold the same key. *)
Definition unique_keys (results : gmap string Hand) : Prop :=
  NoDup (map (λ h, outcomeKey (Some h)) (map snd (map_to_list results))).

(** The scored entry of a name: what [computeLeaders] makes of the name
    when all have rolled. *)
Definition scored_entry (results : gmap string Hand) (n : string) : Scored :=
  mkScored (mkEntry n (results !! n)) (rankScore (results !! n)).

(** The score of the entry is an integer. *)
Definition numeric (e : Scored) : Prop := ∃ s, score e = Num s.

(** A hand that [rollCeeLo] can return. *)
Definition rolled_hand (h : Hand) : Prop :=
  ∃ x y z, (1 ≤ x ≤ 6 ∧ 1 ≤ y ≤ 6 ∧ 1 ≤ z ≤ 6) ∧ classify_dice x y z = Some h.

(** The 216 ordered triples of dice. *)
Definition die_faces : list Z := [1; 2; 3; 4; 5; 6].

Definition all_triples : list (Z * Z * Z) :=
  x ← die_faces; y ← die_faces; z ← die_faces; [(x, y, z)].

(** The triples for which a pass of the loop of [rollCeeLo] returns. *)
Definition classified (t : Z * Z * Z) : bool :=
  match classify_dice t.1.1 t.1.2 t.2 with
  | Some _ => true
  | None => false
  end.

(** The fourteen keys in the order of the ranking, each with its score. *)
Definition score_table : list (string * Z) :=
  [ ("456", 400);
    ("triple:6", 306); ("triple:5", 305); ("triple:4", 304);
    ("triple:3", 303); ("triple:2", 302); ("triple:1", 301);
    ("point:6", 106); ("point:5", 105); ("point:4", 104);
    ("point:3", 103); ("point:2", 102); ("point:1", 101);
    ("123", 0) ].

(** ** Instances of the draws and of the host functions for the examples *)

(** Every die shows 1. *)
Definition rnd_ones : Random := λ _, 0.

(** The dice show 1, 2, 4 again and again. *)
Definition rnd_124 : Random :=
  λ i, match (i mod 3)%nat with
       | O => 0
       | S O => 1
       | _ => 3
       end.

(** Trimming of the ASCII white space. *)
Definition is_space (c : ascii) : bool :=
  bool_decide (c ∈ [" "; "009"; "010"; "011"; "012"; "013"]%char).

Fixpoint trim_start (s : string) : string :=
  match s with
  | String c s' => if is_space c then trim_start s' else s
  | EmptyString => EmptyString
  end.

Definition ascii_trim (s : string) : string :=
  String.rev (trim_start (String.rev (trim_start s))).

(** Comparison of strings by the codes of their characters. *)
Definition code_compare (a b : string) : Z :=
  match OrdersEx.String_as_OT.compare a b with
  | Lt => -1
  | Eq => 0
  | Gt => 1
  end.

(** ** The rest of the server: start-up, persistence, resets and the admin
       tokens *)

Definition DEFAULT_FRIENDS : list string :=
  [ "David J"; "David L"; "Zac"; "Zach"; "Will";
    "Jimmy"; "Scott"; "Nick"; "Joey"; "Brandy" ].

(** [process.env.RESET_SECRET || ""] and [process.env.ADMIN_PASSWORD || "buck"],
    for a variable of the environment that is set or not. *)
Definition RESET_SECRET (env : option string) : string := default "" env.

Definition ADMIN_PASSWORD (env : option string) : string :=
  match env with
  | Some p => if bool_decide (p = "") then "buck" else p
  | None => "buck"
  end.

(** [let state = {...}], stamped [now]. *)
Definition initial_state (now : string) : State := mkState DEFAULT_FRIENDS ∅ now.

(** What [JSON.parse] makes of the state file, as far as [loadFromDisk] looks
    at it: [friends] when it is an array, [results] when it is an object,
    [updatedAt] when it is there. *)
Record DiskData : Type := mkDiskData {
  data_friends : option (list string);
  data_results : option (gmap string Hand);
  data_updatedAt : option string
}.

(** [loadFromDisk()]. [file] is [None] when no state file is configured, when
    it does not exist and when reading or parsing it throws. *)
Definition loadFromDisk (file : option DiskData) (state : State) : State :=
  match file with
  | None => state
  | Some data =>
      let state1 :=
        match data_friends data with
        | Some f => mkState f (results state) (updatedAt state)
        | None => state
        end in
      let state2 :=
        match data_results data with
        | Some r => mkState (friends state1) r (updatedAt state1)
        | None => state1
        end in
      match data_updatedAt data with
      | Some u =>
          if bool_decide (u = "") then state2
          else mkState (friends state2) (results state2) u
      | None => state2
      end
  end.

(** What [saveToDisk()] writes, [JSON.stringify(state)], read back by
    [JSON.parse]. *)
Definition saveToDisk (state : State) : DiskData :=
  mkDiskData (Some (friends state)) (Some (results state)) (Some (updatedAt state)).

(** [issueAdminToken()]; [t] is the hex string of the sixteen random bytes. *)
Definition issueAdminToken (t : string) (adminTokens : gset string)
    : string * gset string :=
  (t, {[t]} ∪ adminTokens).

(** [app.post("/api/admin/login")]; [password] is [req.body.password]. *)
Definition login (admin_password : string) (password : option string)
    (t : string) (adminTokens : gset string) : response string * gset string :=
  match password with
  | None => (Fail 401 "Wrong password", adminTokens)
  | Some p =>
      if bool_decide (p = "") || negb (bool_decide (p = admin_password)) then
        (Fail 401 "Wrong password", adminTokens)
      else
        let '(token, adminTokens') := issueAdminToken t adminTokens in
        (Ok token, adminTokens')
  end.

(** [app.post("/api/reset")], the legacy reset; [secret] is [req.body.secret]. *)
Definition reset (reset_secret : string) (secret : option string) (now : string)
    (state : State) : response string * State :=
  if bool_decide (reset_secret = "") || negb (bool_decide (secret = Some reset_secret)) then
    (Fail 403 "Bad secret", state)
  else (Ok now, mkState (friends state) ∅ now).

Section Admin.
Variable trim : string → string.

(** [getToken(req)]; [authorization] is the header of that name,
    [body_token] is [req.body.token]. *)
Definition getToken (authorization body_token : option string) : string :=
  let h := default "" authorization in
  if String.prefix "Bearer " h then
    trim (String.substring 7 (String.length h - 7) h)
  else default "" body_token.

(** [requireAdmin(req,res,next)] in front of the handler [next]. *)
Definition requireAdmin {A : Type} (adminTokens : gset string)
    (authorization body_token : option string)
    (next : State → response A * State) (state : State) : response A * State :=
  let t := getToken authorization body_token in
  if bool_decide (t = "") || negb (bool_decide (t ∈ adminTokens)) then
    (Fail 401 "Not authorized", state)
  else next state.

(** The two routes behind [requireAdmin]. *)
Definition post_set_names (adminTokens : gset string)
    (authorization body_token : option string)
    (body_friends : option (list string)) (now : string)
    : State → response NamesBody * State :=
  requireAdmin adminTokens authorization body_token (set_names trim body_friends now).

Definition post_admin_reset (adminTokens : gset string)
    (authorization body_token : option string) (now : string)
    : State → response string * State :=
  requireAdmin adminTokens authorization body_token (admin_reset now).
End Admin.

(** The body of [app.get("/api/state")]:
    [{ friends, results, updatedAt, winner }]. *)
Record StateBody : Type := mkStateBody {
  sb_friends : list string;
  sb_results : gmap string Hand;
  sb_updatedAt : string;
  sb_winner : Winner
}.

(** [app.get("/api/state")] *)
Definition get_state (localeCompare : string → string → Z) (state : State)
    : completion StateBody :=
  match computeLeaders localeCompare state (results state) with
  | Throws e => Throws e
  | Returns winner =>
      Returns (mkStateBody (friends state) (results state) (updatedAt state) winner)
  end.

(** The server: the round state and the set of the admin tokens. *)
Record App : Type := mkApp {
  app_state : State;
  adminTokens : gset string
}.

(** One request served. The draws of a roll are dice, and the handler has
    returned. *)
Inductive step (trim : string → string) (lc : string → string → Z)
    (reset_secret admin_password : string) : App → App → Prop :=
  | step_roll app body_name now fuel rnd i c state' i' :
      in_range rnd →
      roll trim lc body_name now fuel rnd i (app_state app) = Some (c, state', i') →
      step trim lc reset_secret admin_password app (mkApp state' (adminTokens app))
  | step_reset app secret now :
      step trim lc reset_secret admin_password app
        (mkApp (reset reset_secret secret now (app_state app)).2 (adminTokens app))
  | step_login app password t :
      step trim lc reset_secret admin_password app
        (mkApp (app_state app) (login admin_password password t (adminTokens app)).2)
  | step_set_names app authorization body_token body_friends now :
      step trim lc reset_secret admin_password app
        (mkApp (post_set_names trim (adminTokens app) authorization body_token
                  body_friends now (app_state app)).2
               (adminTokens app))
  | step_admin_reset app authorization body_token now :
      step trim lc reset_secret admin_password app
        (mkApp (post_admin_reset trim (adminTokens app) authorization body_token
                  now (app_state app)).2
               (adminTokens app)).

(** The [k]-th pass of the loop of [rollCeeLo] when it starts at draw [i]. *)
Definition pass (rnd : Random) (i k : nat) : option Hand :=
  classify_dice (d6 rnd (i + 3 * k)) (d6 rnd (i + 3 * k + 1)) (d6 rnd (i + 3 * k + 2)).

(** The state of a round in play: a roster without blank or repeated names
    that is not empty, results only for its names, of hands that
    [rollCeeLo] can return, no two with the same key. *)
Definition round_ok (state : State) : Prop :=
  friends state ≠ [] ∧ NoDup (friends state) ∧ ("" ∉ friends state) ∧
  (∀ n, is_Some (results state !! n) → n ∈ friends state) ∧
  (∀ n h, results state !! n = Some h → rolled_hand h) ∧
  unique_keys (results state).

(** The names of the properties that every plain object inherits from
    [Object.prototype]. Under one of these names [results[name]] reads the
    inherited value, a function or an object, when [results] has no entry
    of its own for it; under every other name it reads the entry or
    [undefined], as the lookup [results !! name] does. *)
Definition Object_prototype_names : list string :=
  [ "constructor"; "__defineGetter__"; "__defineSetter__"; "hasOwnProperty";
    "__lookupGetter__"; "__lookupSetter__"; "isPrototypeOf";
    "propertyIsEnumerable"; "toString"; "valueOf"; "__proto__";
    "toLocaleString" ].

Definition plain_name (n : string) : Prop := n ∉ Object_prototype_names.

Definition plain_names (l : list string) : Prop := Forall plain_name l.

(** The test [if (results[name])] of the handlers, with what is inherited. *)
Definition has_value (results : gmap string Hand) (name : string) : bool :=
  bool_decide (is_Some (results !! name)) ||
  bool_decide (name ∈ Object_prototype_names).

(** One request served that leaves a roster of plain names. *)
Definition plain_step (trim : string → string) (lc : string → string → Z)
    (reset_secret admin_password : string) (app app' : App) : Prop :=
  step trim lc reset_secret admin_password app app' ∧
  plain_names (friends (app_state app')).

(** A round in which the fourteen keys are taken, and a roster with one
    more name. *)
Definition full_round_rolls : list (string * (Z * Z * Z)) :=
  [ ("P01", (4, 5, 6)); ("P02", (6, 6, 6)); ("P03", (5, 5, 5)); ("P04", (4, 4, 4));
    ("P05", (3, 3, 3)); ("P06", (2, 2, 2)); ("P07", (1, 1, 1)); ("P08", (1, 1, 6));
    ("P09", (1, 1, 5)); ("P10", (1, 1, 4)); ("P11", (1, 1, 3)); ("P12", (1, 1, 2));
    ("P13", (2, 2, 1)); ("P14", (1, 2, 3)) ].

Definition full_round : gmap string Hand :=
  list_to_map
    (omap (λ r : string * (Z * Z * Z),
             (λ h, (r.1, h)) <$> classify_dice r.2.1.1 r.2.1.2 r.2.2)
          full_round_rolls).

Definition full_roster : list string := full_round_rolls.*1 ++ ["Late"].

(** * Properties *)

(** ** The dice *)

Lemma die_values (a : Z) :
  1 ≤ a ≤ 6 → a = 1 ∨ a = 2 ∨ a = 3 ∨ a = 4 ∨ a = 5 ∨ a = 6.
Proof. lia. Qed.

Ltac each_die a H :=
  apply die_values in H;
  destruct H as [-> | [-> | [-> | [-> | [-> | ->]]]]].

Example roll_sorted :
  classify_dice 5 2 5 = Some (mkHand [2; 5; 5] "Point 2" "point" None (Some 2)).
Proof. reflexivity. Qed.

Example roll_456 :
  classify_dice 6 4 5 = Some (mkHand [4; 5; 6] "4-5-6 (auto win)" "456" None None).
Proof. reflexivity. Qed.

Example roll_124 : classify_dice 4 1 2 = None.
Proof. reflexivity. Qed.

Lemma classify_dice_cases (a b c : Z) :
  1 ≤ a ≤ 6 → 1 ≤ b ≤ 6 → 1 ≤ c ≤ 6 →
  (is_Some (classify_dice a b c) ↔
     a = b ∨ b = c ∨ a = c ∨
     sort_dice a b c = [1; 2; 3] ∨ sort_dice a b c = [4; 5; 6]) ∧
  (∀ h, classify_dice a b c = Some h →
     dice h = sort_dice a b c ∧
     ((type h = "456" ∧ dice h = [4; 5; 6]) ∨
      (type h = "123" ∧ dice h = [1; 2; 3]) ∨
      (type h = "triple" ∧ triple h = Some a ∧ a = b ∧ b = c) ∨
      (type h = "point" ∧ is_Some (point h) ∧ ¬ (a = b ∧ b = c)))).
Proof.
  intros Ha Hb Hc. each_die a Ha; each_die b Hb; each_die c Hc;
    vm_compute classify_dice; vm_compute sort_dice; (split; [split|]);
    try (intros _; eauto 6; fail);
    try (intros [h [=]]; fail);
    try (intros [|[|[|[|]]]]; congruence);
    try (intros h [=]; fail);
    (intros h [= <-]; simpl; split; [reflexivity|]);
    first [ left; split; reflexivity
          | right; left; split; reflexivity
          | right; right; left; repeat split; reflexivity
          | right; right; right; split; [reflexivity|];
            split; [eexists; reflexivity | intros [? ?]; congruence] ].
Qed.

Lemma classified_count :
  length all_triples = 216%nat ∧
  length (filter (λ t, classified t = true) all_triples) = 108%nat.
Proof. split; vm_compute; reflexivity. Qed.

(** Claim C1, counterexample: the classification is not total on the 216
    triples. The dice 1, 2, 4 match none of the six tests, no hand is made of
    them and [rollCeeLo] draws again. *)
Lemma classify_dice_not_total :
  ¬ (∀ a b c : Z, 1 ≤ a ≤ 6 → 1 ≤ b ≤ 6 → 1 ≤ c ≤ 6 →
       ∃ h, classify_dice a b c = Some h ∧
            (type h = "456" ∨ type h = "123" ∨ type h = "triple" ∨ type h = "point")).
Proof.
  intros H. destruct (H 1 2 4) as (h & Hh & _); [lia | lia | lia |].
  vm_compute in Hh. discriminate Hh.
Qed.

(** Claim C1, as the code has it: for dice in 1..6 a pass of the loop of
    [rollCeeLo] makes a hand exactly when two of the dice are equal or the
    sorted dice are 1-2-3 or 4-5-6; the hand then has one of the four types,
    each with its own condition on the dice. Of the 216 ordered triples 108
    are classified; the other 108, three different values that form neither
    run, are not and are rolled again. *)
Theorem classify_dice_defined :
  (∀ a b c : Z, 1 ≤ a ≤ 6 → 1 ≤ b ≤ 6 → 1 ≤ c ≤ 6 →
     (is_Some (classify_dice a b c) ↔
        a = b ∨ b = c ∨ a = c ∨
        sort_dice a b c = [1; 2; 3] ∨ sort_dice a b c = [4; 5; 6]) ∧
     (∀ h, classify_dice a b c = Some h →
        dice h = sort_dice a b c ∧
        ((type h = "456" ∧ dice h = [4; 5; 6]) ∨
         (type h = "123" ∧ dice h = [1; 2; 3]) ∨
         (type h = "triple" ∧ triple h = Some a ∧ a = b ∧ b = c) ∨
         (type h = "point" ∧ is_Some (point h) ∧ ¬ (a = b ∧ b = c))))) ∧
  length all_triples = 216%nat ∧
  length (filter (λ t, classified t = true) all_triples) = 108%nat.
Proof.
  split; [exact classify_dice_cases | exact classified_count].
Qed.

(** Claim C1: the theorem at the dice 2, 5, 2. *)
Lemma classify_dice_defined_witness :
  (is_Some (classify_dice 2 5 2) ↔
     2 = 5 ∨ 5 = 2 ∨ 2 = 2 ∨
     sort_dice 2 5 2 = [1; 2; 3] ∨ sort_dice 2 5 2 = [4; 5; 6]) ∧
  (∀ h, classify_dice 2 5 2 = Some h →
     dice h = sort_dice 2 5 2 ∧
     ((type h = "456" ∧ dice h = [4; 5; 6]) ∨
      (type h = "123" ∧ dice h = [1; 2; 3]) ∨
      (type h = "triple" ∧ triple h = Some 2 ∧ 2 = 5 ∧ 5 = 2) ∨
      (type h = "point" ∧ is_Some (point h) ∧ ¬ (2 = 5 ∧ 5 = 2)))).
Proof. apply (proj1 classify_dice_defined 2 5 2); lia. Defined.

(** Claim C7: a triple of dice in 1..6 is classified as a point hand with
    point [v] exactly when two of the dice are equal and the third is [v],
    different from the pair; so every value of 1..6 other than the value of
    the pair is a point value, and a hand of type point always has its
    [point]. *)
Theorem point_is_the_odd_die (a b c : Z) :
  1 ≤ a ≤ 6 → 1 ≤ b ≤ 6 → 1 ≤ c ≤ 6 →
  (∀ h, classify_dice a b c = Some h → type h = "point" → is_Some (point h)) ∧
  (∀ v, (∃ h, classify_dice a b c = Some h ∧ type h = "point" ∧ point h = Some v) ↔
        (a = b ∧ c = v ∧ v ≠ a) ∨ (a = c ∧ b = v ∧ v ≠ a) ∨ (b = c ∧ a = v ∧ v ≠ b)).
Proof.
  intros Ha Hb Hc. each_die a Ha; each_die b Hb; each_die c Hc;
    vm_compute classify_dice; (split; [|intros v; split]);
    try (intros h [= <-]; simpl; (discriminate || eauto); fail);
    try (intros h [=]; fail);
    try (intros (h & [= <-] & Ht & [= <-]); lia);
    try (intros (h & [= <-] & [=] & _); fail);
    try (intros (h & [=] & _); fail);
    try (intros [(? & <- & ?) | [(? & <- & ?) | (? & <- & ?)]];
         (lia || (eexists; split; [reflexivity | split; reflexivity]))).
Qed.

(** Claim C7: the theorem at the dice 5, 2, 5. *)
Lemma point_is_the_odd_die_witness :
  (∀ h, classify_dice 5 2 5 = Some h → type h = "point" → is_Some (point h)) ∧
  (∀ v, (∃ h, classify_dice 5 2 5 = Some h ∧ type h = "point" ∧ point h = Some v) ↔
        (5 = 2 ∧ 5 = v ∧ v ≠ 5) ∨ (5 = 5 ∧ 2 = v ∧ v ≠ 5) ∨ (2 = 5 ∧ 5 = v ∧ v ≠ 2)).
Proof. apply (point_is_the_odd_die 5 2 5); lia. Defined.

(** ** The scores *)

Lemma score_table_keys : NoDup score_table.*1 ∧ length score_table = MAX_UNIQUE.
Proof. split; [|reflexivity]. apply (bool_decide_unpack _). vm_compute. exact I. Qed.

Lemma score_table_order (i j : nat) (r r' : string * Z) :
  score_table !! i = Some r → score_table !! j = Some r' →
  ((i < j)%nat ↔ r'.2 < r.2) ∧ (i = j ↔ r.2 = r'.2).
Proof.
  intros Hi Hj.
  pose proof (lookup_lt_Some _ _ _ Hi) as Hi14.
  pose proof (lookup_lt_Some _ _ _ Hj) as Hj14.
  change (length score_table) with 14%nat in Hi14, Hj14.
  revert Hi Hj Hi14 Hj14.
  do 14 (destruct i as [|i];
         [ do 14 (destruct j as [|j];
                  [simpl; intros [= <-] [= <-]; simpl; lia|]);
           intros; lia |]).
  intros; lia.
Qed.

Ltac table_row i := exists i; eexists; split; vm_compute; reflexivity.

Lemma slot_of_hand (a b c : Z) (h : Hand) :
  1 ≤ a ≤ 6 → 1 ≤ b ≤ 6 → 1 ≤ c ≤ 6 →
  classify_dice a b c = Some h →
  ∃ i s, score_table !! i = Some (outcomeKey (Some h), s) ∧ rankScore (Some h) = Num s.
Proof.
  intros Ha Hb Hc. each_die a Ha; each_die b Hb; each_die c Hc;
    vm_compute classify_dice; intros [= <-];
    first [ table_row 0%nat | table_row 1%nat | table_row 2%nat | table_row 3%nat
          | table_row 4%nat | table_row 5%nat | table_row 6%nat | table_row 7%nat
          | table_row 8%nat | table_row 9%nat | table_row 10%nat | table_row 11%nat
          | table_row 12%nat | table_row 13%nat ].
Qed.

Ltac rolled x y z := exists x, y, z; eexists; repeat split; lia || reflexivity.

Lemma score_table_realised :
  Forall (λ row : string * Z,
            ∃ x y z g, (1 ≤ x ≤ 6 ∧ 1 ≤ y ≤ 6 ∧ 1 ≤ z ≤ 6) ∧
              classify_dice x y z = Some g ∧
              outcomeKey (Some g) = row.1 ∧ rankScore (Some g) = Num row.2)
         score_table.
Proof.
  unfold score_table.
  repeat apply Forall_cons_2; [..|apply Forall_nil_2].
  - rolled 4 5 6.
  - rolled 6 6 6.
  - rolled 5 5 5.
  - rolled 4 4 4.
  - rolled 3 3 3.
  - rolled 2 2 2.
  - rolled 1 1 1.
  - rolled 1 1 6.
  - rolled 1 1 5.
  - rolled 1 1 4.
  - rolled 1 1 3.
  - rolled 1 1 2.
  - rolled 2 2 1.
  - rolled 1 2 3.
Qed.

Lemma score_table_lookup_key (i : nat) (k : string) (s s0 : Z) :
  score_table !! i = Some (k, s) → (k, s0) ∈ score_table → s = s0.
Proof.
  intros Hi Hin. pose proof (lookup_lt_Some _ _ _ Hi) as Hi14.
  change (length score_table) with 14%nat in Hi14.
  revert Hi Hin Hi14. unfold score_table. rewrite !elem_of_cons, elem_of_nil.
  do 14 (destruct i as [|i];
         [simpl; intros [= <- <-]; intros H _;
          repeat (destruct H as [H|H]; [congruence|]); destruct H|]).
  intros; lia.
Qed.

(** Claim C6: the keys of any two hands that [rollCeeLo] can return are rows
    of [score_table], which lists the fourteen keys as 4-5-6, triple 6 to
    triple 1, point 6 to point 1, 1-2-3; the row of a hand carries its
    [rankScore], and one hand is earlier in the table than the other exactly
    when its score is greater, and in the same row exactly when the scores
    are equal. Triple 3 scores 303 and point 5 scores 105. The fourteen keys
    are distinct and each is the key of some roll. *)
Theorem rankScore_order (a b c a' b' c' : Z) (h h' : Hand) :
  1 ≤ a ≤ 6 → 1 ≤ b ≤ 6 → 1 ≤ c ≤ 6 →
  1 ≤ a' ≤ 6 → 1 ≤ b' ≤ 6 → 1 ≤ c' ≤ 6 →
  classify_dice a b c = Some h → classify_dice a' b' c' = Some h' →
  (∃ i j s s',
     score_table !! i = Some (outcomeKey (Some h), s) ∧
     score_table !! j = Some (outcomeKey (Some h'), s') ∧
     rankScore (Some h) = Num s ∧ rankScore (Some h') = Num s' ∧
     ((i < j)%nat ↔ s' < s) ∧ (i = j ↔ s = s')) ∧
  (outcomeKey (Some h) = "triple:3" → rankScore (Some h) = Num 303) ∧
  (outcomeKey (Some h) = "point:5" → rankScore (Some h) = Num 105) ∧
  NoDup score_table.*1 ∧ length score_table = MAX_UNIQUE ∧
  Forall (λ row : string * Z,
            ∃ x y z g, (1 ≤ x ≤ 6 ∧ 1 ≤ y ≤ 6 ∧ 1 ≤ z ≤ 6) ∧
              classify_dice x y z = Some g ∧
              outcomeKey (Some g) = row.1 ∧ rankScore (Some g) = Num row.2)
         score_table.
Proof.
  intros Ha Hb Hc Ha' Hb' Hc' Hh Hh'.
  destruct (slot_of_hand a b c h Ha Hb Hc Hh) as (i & s & Hi & Hs).
  destruct (slot_of_hand a' b' c' h' Ha' Hb' Hc' Hh') as (j & s' & Hj & Hs').
  destruct (score_table_order i j _ _ Hi Hj) as [Hlt Heq]. simpl in Hlt, Heq.
  split; [|split; [|split; [|split; [|split]]]].
  - exists i, j, s, s'. repeat split; solve [assumption | apply Hlt | apply Heq].
  - intros Hk. rewrite Hk in Hi. rewrite Hs. f_equal.
    apply (score_table_lookup_key i "triple:3"); [exact Hi|].
    unfold score_table. rewrite !elem_of_cons. tauto.
  - intros Hk. rewrite Hk in Hi. rewrite Hs. f_equal.
    apply (score_table_lookup_key i "point:5"); [exact Hi|].
    unfold score_table. rewrite !elem_of_cons. tauto.
  - apply score_table_keys.
  - apply score_table_keys.
  - apply score_table_realised.
Qed.

(** Claim C6: the theorem at the rolls 3, 3, 3 and 5, 2, 2. *)
Lemma rankScore_order_witness :
  (∃ i j s s',
     score_table !! i = Some (outcomeKey (classify_dice 3 3 3), s) ∧
     score_table !! j = Some (outcomeKey (classify_dice 5 2 2), s') ∧
     rankScore (classify_dice 3 3 3) = Num s ∧ rankScore (classify_dice 5 2 2) = Num s' ∧
     ((i < j)%nat ↔ s' < s) ∧ (i = j ↔ s = s')) ∧
  rankScore (classify_dice 3 3 3) = Num 303 ∧
  rankScore (classify_dice 5 2 2) = Num 105.
Proof.
  destruct (rankScore_order 3 3 3 5 2 2
              (mkHand [3; 3; 3] "Triple 3" "triple" (Some 3) None)
              (mkHand [2; 2; 5] "Point 5" "point" None (Some 5)))
    as (Hord & H303 & _); [lia | lia | lia | lia | lia | lia | reflexivity | reflexivity |].
  destruct (rankScore_order 5 2 2 3 3 3
              (mkHand [2; 2; 5] "Point 5" "point" None (Some 5))
              (mkHand [3; 3; 3] "Triple 3" "triple" (Some 3) None))
    as (_ & _ & H105 & _); [lia | lia | lia | lia | lia | lia | reflexivity | reflexivity |].
  split; [exact Hord|]. split; [apply H303 | apply H105]; reflexivity.
Defined.

(** ** The allocation loop *)

Lemma rollCeeLo_fuel_mono (n m : nat) (rnd : Random) (i : nat) (r : Hand * nat) :
  (n ≤ m)%nat → rollCeeLo n rnd i = Some r → rollCeeLo m rnd i = Some r.
Proof.
  revert m i. induction n as [|n IH]; intros m i Hle; [discriminate|].
  destruct m as [|m]; [lia|]. simpl.
  destruct (classify_dice _ _ _); [auto|]. apply IH. lia.
Qed.

Lemma allocate_fuel_mono (n m : nat) (rnd : Random) (used : gset string)
    (i : nat) (tries : Z) (r : Allocation * nat * Z) :
  (n ≤ m)%nat → allocate n rnd used i tries = Some r →
  allocate m rnd used i tries = Some r.
Proof.
  revert m i tries. induction n as [|n IH]; intros m i tries Hle; [discriminate|].
  destruct m as [|m]; [lia|].
  cbn [allocate].
  destruct (rollCeeLo (S n) rnd i) as [[h i']|] eqn:Hroll; [|discriminate].
  rewrite (rollCeeLo_fuel_mono (S n) (S m) rnd i (h, i')) by (lia || assumption).
  destruct (tries + 1 >? 20000); [auto|].
  destruct (bool_decide _); [|auto]. apply IH. lia.
Qed.

Lemma allocate_accepted (fuel : nat) (rnd : Random) (used : gset string)
    (i : nat) (tries : Z) (h : Hand) (key : string) (i' : nat) (tries' : Z) :
  allocate fuel rnd used i tries = Some (Accepted h key, i', tries') →
  key = outcomeKey (Some h) ∧ (key ∉ used) ∧
  ∃ n j, rollCeeLo n rnd j = Some (h, i').
Proof.
  revert i tries. induction fuel as [|fuel IH]; intros i tries; [discriminate|].
  cbn [allocate].
  destruct (rollCeeLo (S fuel) rnd i) as [[h0 i0]|] eqn:Hroll; [|discriminate].
  destruct (tries + 1 >? 20000); [discriminate|].
  destruct (bool_decide (outcomeKey (Some h0) ∈ used)) eqn:Hused.
  - apply IH.
  - intros [= <- <- <- <-]. split; [reflexivity|].
    apply bool_decide_eq_false in Hused. split; [exact Hused|]. eauto.
Qed.

(** Claim C2: when the loop of the roll handler ends with an accepted hand,
    the key that goes with it is the [outcomeKey] of the hand and is not in
    [used]. This holds for every [used], and so for one with a free key. *)
Theorem allocate_key_free (fuel : nat) (rnd : Random) (used : gset string)
    (i : nat) (tries : Z) (h : Hand) (key : string) (i' : nat) (tries' : Z) :
  allocate fuel rnd used i tries = Some (Accepted h key, i', tries') →
  key = outcomeKey (Some h) ∧ key ∉ used.
Proof.
  intros Hrun. destruct (allocate_accepted _ _ _ _ _ _ _ _ _ Hrun) as (Hkey & Hfree & _).
  split; assumption.
Qed.

(** Claim C2: the theorem at a run that accepts triple 1. *)
Lemma allocate_key_free_witness :
  allocate 2 rnd_ones {["456"; "point:2"]} 0 0 =
    Some (Accepted (mkHand [1; 1; 1] "Triple 1" "triple" (Some 1) None) "triple:1",
          3%nat, 1) ∧
  "triple:1" = outcomeKey (Some (mkHand [1; 1; 1] "Triple 1" "triple" (Some 1) None)) ∧
  "triple:1" ∉ ({["456"; "point:2"]} : gset string).
Proof.
  assert (allocate 2 rnd_ones {["456"; "point:2"]} 0 0 =
            Some (Accepted (mkHand [1; 1; 1] "Triple 1" "triple" (Some 1) None)
                    "triple:1", 3%nat, 1)) as Hrun
    by (vm_compute; reflexivity).
  split; [exact Hrun|].
  exact (allocate_key_free 2 rnd_ones {["456"; "point:2"]} 0 0 _ _ 3 1 Hrun).
Defined.

Lemma rnd_124_in_range : in_range rnd_124.
Proof.
  intros i. unfold rnd_124. destruct (i mod 3)%nat as [|[|]]; lia.
Qed.

Lemma rnd_124_stuck (fuel k : nat) : rollCeeLo fuel rnd_124 (3 * k) = None.
Proof.
  revert k. induction fuel as [|fuel IH]; intros k; [reflexivity|].
  cbn [rollCeeLo]. unfold d6, rnd_124.
  replace (3 * k)%nat with (0 + k * 3)%nat at 1 by lia.
  replace (3 * k + 1)%nat with (1 + k * 3)%nat by lia.
  replace (3 * k + 2)%nat with (2 + k * 3)%nat by lia.
  rewrite !Nat.Div0.mod_add.
  change (classify_dice _ _ _) with (@None Hand). cbv iota.
  replace (3 * k + 3)%nat with (3 * (S k))%nat by lia. apply IH.
Qed.

(** Claim C3, counterexample: on the draws of [rnd_124], where the dice show
    1, 2, 4 again and again, the first call of [rollCeeLo] never returns, so
    the loop of the roll handler returns for no amount of fuel: the cap of
    20000 counts the hands, not the draws. *)
Lemma allocate_stuck_on_124 :
  ¬ (∀ (rnd : Random) (used : gset string), in_range rnd →
       ∃ fuel r, allocate fuel rnd used 0 0 = Some r).
Proof.
  intros H. destruct (H rnd_124 ∅ rnd_124_in_range) as (fuel & r & Hr).
  destruct fuel as [|fuel]; [discriminate|].
  cbn [allocate] in Hr.
  pose proof (rnd_124_stuck (S fuel) 0) as Hstuck.
  change (3 * 0)%nat with 0%nat in Hstuck.
  rewrite Hstuck in Hr. discriminate.
Qed.

(** Claim C3, as the code has it: if every call of [rollCeeLo] returns on the
    draws [rnd], the loop of the roll handler completes: with an accepted
    hand, whose key is not in [used], after at most 20000 calls of
    [rollCeeLo], or past the cap at the 20001st call. *)
Theorem allocate_completes (rnd : Random) (used : gset string) (i : nat) :
  (∀ j, ∃ n, is_Some (rollCeeLo n rnd j)) →
  ∃ fuel a i' tries,
    (∀ fuel', (fuel ≤ fuel')%nat →
       allocate fuel' rnd used i 0 = Some (a, i', tries)) ∧
    ((∃ h key, a = Accepted h key ∧ (key ∉ used) ∧ (1 ≤ tries ≤ 20000)) ∨
     (a = Exceeded ∧ tries = 20001)).
Proof.
  intros Hroll.
  assert (∀ (n : nat) (t : Z) (i : nat), 0 ≤ t → 20001 - t ≤ Z.of_nat n →
            ∃ fuel a i' tries,
              allocate fuel rnd used i t = Some (a, i', tries) ∧
              ((∃ h key, a = Accepted h key ∧ (key ∉ used) ∧ (t + 1 ≤ tries ≤ 20000)) ∨
               (a = Exceeded ∧ tries = Z.max (t + 1) 20001))) as Hloop.
  { clear i. induction n as [|n IH]; intros t i Ht Hn.
    - destruct (Hroll i) as (f & [[h i1] Hf]).
      exists (S f), Exceeded, i1, (t + 1). split; [|right; split; [reflexivity|lia]].
      cbn [allocate].
      rewrite (rollCeeLo_fuel_mono f (S f) rnd i (h, i1)) by (lia || assumption).
      destruct (t + 1 >? 20000) eqn:Hcap; [reflexivity|lia].
    - destruct (Hroll i) as (f & [[h i1] Hf]).
      destruct (t + 1 >? 20000) eqn:Hcap.
      + exists (S f), Exceeded, i1, (t + 1). split; [|right; split; [reflexivity|lia]].
        cbn [allocate].
        rewrite (rollCeeLo_fuel_mono f (S f) rnd i (h, i1)) by (lia || assumption).
        rewrite Hcap. reflexivity.
      + destruct (bool_decide (outcomeKey (Some h) ∈ used)) eqn:Hused.
        * destruct (IH (t + 1) i1) as (f2 & a & i' & tries & Hrun & Hpost); [lia | lia |].
          exists (S (f `max` f2)), a, i', tries. split.
          -- cbn [allocate].
             rewrite (rollCeeLo_fuel_mono f (S (f `max` f2)) rnd i (h, i1))
               by (lia || assumption).
             rewrite Hcap, Hused.
             apply (allocate_fuel_mono f2); [lia | exact Hrun].
          -- destruct Hpost as [(h' & key & -> & Hfree & Htries) | [-> ->]].
             ++ left. exists h', key. repeat split; (assumption || lia).
             ++ right. split; [reflexivity|lia].
        * exists (S f), (Accepted h (outcomeKey (Some h))), i1, (t + 1). split.
          -- cbn [allocate].
             rewrite (rollCeeLo_fuel_mono f (S f) rnd i (h, i1)) by (lia || assumption).
             rewrite Hcap, Hused. reflexivity.
          -- left. exists h, (outcomeKey (Some h)).
             apply bool_decide_eq_false in Hused. repeat split; (assumption || lia). }
  destruct (Hloop (Z.to_nat 20001) 0 i) as (fuel & a & i' & tries & Hrun & Hpost); [lia | lia |].
  exists fuel, a, i', tries. split.
  - intros fuel' Hle. apply (allocate_fuel_mono fuel); assumption.
  - destruct Hpost as [(h & key & -> & Hfree & Htries) | [-> ->]].
    + left. exists h, key. repeat split; (assumption || lia).
    + right. split; [reflexivity|lia].
Qed.

(** Claim C3: the theorem on the draws of [rnd_ones]. *)
Lemma allocate_completes_witness :
  (∀ j, ∃ n, is_Some (rollCeeLo n rnd_ones j)) ∧
  ∃ fuel a i' tries,
    (∀ fuel', (fuel ≤ fuel')%nat →
       allocate fuel' rnd_ones {["triple:2"]} 0 0 = Some (a, i', tries)) ∧
    ((∃ h key, a = Accepted h key ∧ (key ∉ ({["triple:2"]} : gset string)) ∧
               (1 ≤ tries ≤ 20000)) ∨
     (a = Exceeded ∧ tries = 20001)).
Proof.
  assert (∀ j, ∃ n, is_Some (rollCeeLo n rnd_ones j)) as Hreturns
    by (intros j; exists 1%nat; eexists; reflexivity).
  split; [exact Hreturns|].
  exact (allocate_completes rnd_ones {["triple:2"]} 0 Hreturns).
Defined.

(** ** The sort *)

Section JsSortFacts.
Context {A : Type} (cmp : A → A → Z).

Lemma sort_insert_perm (x : A) (l : list A) : sort_insert cmp x l ≡ₚ x :: l.
Proof.
  induction l as [|y l IH]; simpl; [reflexivity|].
  destruct (cmp x y >? 0); [|reflexivity].
  rewrite IH. apply Permutation_swap.
Qed.

Lemma js_sort_perm (l : list A) : js_sort cmp l ≡ₚ l.
Proof.
  induction l as [|x l IH]; simpl; [reflexivity|].
  rewrite sort_insert_perm, IH. reflexivity.
Qed.

Lemma js_sort_nil (l : list A) : js_sort cmp l = [] → l = [].
Proof.
  intros H. apply Permutation_nil_r. rewrite <- H. symmetry. apply js_sort_perm.
Qed.
End JsSortFacts.

(** ** The roll request *)

Lemma computeLeaders_throws (lc : string → string → Z) (state : State)
    (results : gmap string Hand) (e : string) :
  computeLeaders lc state results = Throws e → friends state = [].
Proof.
  unfold computeLeaders.
  destruct (negb _) eqn:Hlen; [discriminate|].
  apply negb_false_iff, Nat.eqb_eq in Hlen.
  destruct (js_sort _ _) as [|top rest] eqn:Hsort; [|discriminate].
  intros _. apply js_sort_nil, fmap_nil_inv in Hsort.
  rewrite Hsort in Hlen. destruct (friends state); [reflexivity|discriminate].
Qed.

(** Claim C8: a roll request that is answered with an error leaves the whole
    state as it was, and the error is one of the four of the handler; a
    request that succeeds was made for a name of the roster without a result
    and adds the hand of the response under that name, changing nothing
    else in the results; the handler never throws. *)
Theorem roll_error_no_effect (trim : string → string) (lc : string → string → Z)
    (body_name : option string) (now : string) (fuel : nat) (rnd : Random)
    (i : nat) (state : State)
    (c : completion (response RollBody)) (state' : State) (i' : nat) :
  roll trim lc body_name now fuel rnd i state = Some (c, state', i') →
  match c with
  | Returns (Fail status error) =>
      state' = state ∧
      ((status, error) = (400, "Name not in league") ∨
       (status, error) = (409, "Already rolled") ∨
       (status, error) = (409, "All unique outcomes exhausted") ∨
       (status, error) = (500, "Exceeded attempts for unique outcome"))
  | Returns (Ok body) =>
      let name := trim (default "" body_name) in
      name ∈ friends state ∧ results state !! name = None ∧
      results state' = <[name := rb_hand body]> (results state) ∧
      friends state' = friends state
  | Throws _ => False
  end.
Proof.
  unfold roll.
  destruct (bool_decide (trim (default "" body_name) ∈ friends state)) eqn:Hin; cbn [negb].
  2: { intros [= <- <- <-]. split; [reflexivity|]. left. reflexivity. }
  apply bool_decide_eq_true in Hin.
  destruct (bool_decide (is_Some _)) eqn:Hrolled.
  { intros [= <- <- <-]. split; [reflexivity|]. right. left. reflexivity. }
  apply bool_decide_eq_false in Hrolled.
  destruct (MAX_UNIQUE <=? size _)%nat.
  { intros [= <- <- <-]. split; [reflexivity|]. right. right. left. reflexivity. }
  destruct (allocate _ _ _ _ _) as [[[[h key|] i1] tries]|]; [| |discriminate].
  - destruct (computeLeaders _ _ _) as [w|e] eqn:Hw.
    + intros [= <- <- <-]. simpl. repeat split; try assumption.
      destruct (results state !! _) eqn:Hr; [|reflexivity].
      destruct Hrolled. eauto.
    + apply computeLeaders_throws in Hw. simpl in Hw.
      rewrite Hw in Hin. apply elem_of_nil in Hin. destruct Hin.
  - intros [= <- <- <-]. split; [reflexivity|]. right. right. right. reflexivity.
Qed.

(** Claim C8: the theorem at a second request for the same name. *)
Lemma roll_error_no_effect_witness :
  let state := mkState ["Zac"; "Will"]
                 {["Zac" := mkHand [1; 1; 1] "Triple 1" "triple" (Some 1) None]} "t0" in
  roll ascii_trim code_compare (Some " Zac ") "t1" 2 rnd_ones 0 state =
    Some (Returns (Fail 409 "Already rolled"), state, 0%nat) ∧
  state = state ∧
  ((409, "Already rolled") = (400, "Name not in league") ∨
   (409, "Already rolled") = (409, "Already rolled") ∨
   (409, "Already rolled") = (409, "All unique outcomes exhausted") ∨
   (409, "Already rolled") = (500, "Exceeded attempts for unique outcome")).
Proof.
  intros state.
  assert (roll ascii_trim code_compare (Some " Zac ") "t1" 2 rnd_ones 0 state =
            Some (Returns (Fail 409 "Already rolled"), state, 0%nat)) as Hrun
    by (vm_compute; reflexivity).
  split; [exact Hrun|].
  exact (roll_error_no_effect ascii_trim code_compare (Some " Zac ") "t1" 2 rnd_ones 0
           state (Returns (Fail 409 "Already rolled")) state 0 Hrun).
Defined.

(** ** The roster edit *)

Lemma keep_results_lookup (results : gmap string Hand) (names : list string) (n : string) :
  keep_results results names !! n =
    if decide (n ∈ names) then results !! n else None.
Proof.
  unfold keep_results.
  assert (∀ acc : gmap string Hand,
            foldl (λ newResults n0,
                     match results !! n0 with
                     | Some h => <[n0 := h]> newResults
                     | None => newResults
                     end) acc names !! n =
            match (if decide (n ∈ names) then results !! n else None) with
            | Some h => Some h
            | None => acc !! n
            end) as Hfold.
  { induction names as [|m names IH]; intros acc; cbn [foldl].
    - rewrite decide_False by apply not_elem_of_nil. reflexivity.
    - rewrite IH. destruct (decide (n ∈ names)) as [Hin|Hin].
      + rewrite decide_True by (right; exact Hin).
        destruct (results !! n) eqn:Hn; [reflexivity|].
        destruct (results !! m) eqn:Hm; [|reflexivity].
        rewrite lookup_insert_ne; [reflexivity|]. congruence.
      + destruct (decide (n = m)) as [->|Hne].
        * rewrite decide_True by left.
          destruct (results !! m); [apply lookup_insert_eq|].
          reflexivity.
        * rewrite decide_False by (rewrite elem_of_cons; tauto).
          destruct (results !! m); [|reflexivity].
          rewrite lookup_insert_ne; [reflexivity|]. congruence. }
  rewrite Hfold. rewrite lookup_empty. destruct (decide _); [|reflexivity].
  destruct (results !! n); reflexivity.
Qed.

Lemma NoDup_fmap_injective {A B : Type} (f : A → B) (l : list A) (x y : A) :
  NoDup (f <$> l) → x ∈ l → y ∈ l → f x = f y → x = y.
Proof.
  induction l as [|a l IH]; csimpl; intros Hnd Hx Hy Hf.
  - apply elem_of_nil in Hx. destruct Hx.
  - apply NoDup_cons in Hnd as [Hnot Hnd].
    apply elem_of_cons in Hx as [->|Hx]; apply elem_of_cons in Hy as [->|Hy].
    + reflexivity.
    + destruct Hnot. rewrite Hf. apply list_elem_of_fmap_2. exact Hy.
    + destruct Hnot. rewrite <- Hf. apply list_elem_of_fmap_2. exact Hx.
    + apply IH; assumption.
Qed.

Lemma unique_keys_lookup (results : gmap string Hand) :
  unique_keys results ↔
  ∀ n1 n2 h1 h2, results !! n1 = Some h1 → results !! n2 = Some h2 →
    outcomeKey (Some h1) = outcomeKey (Some h2) → n1 = n2.
Proof.
  unfold unique_keys. rewrite <- list_fmap_compose.
  split.
  - intros Hnd n1 n2 h1 h2 H1 H2 Hk.
    apply elem_of_map_to_list in H1, H2.
    assert ((n1, h1) = (n2, h2)) as Heq; [|congruence].
    apply (NoDup_fmap_injective _ _ _ _ Hnd); assumption.
  - intros Hinj. apply NoDup_fmap_2_strong; [|apply NoDup_map_to_list].
    intros [n1 h1] [n2 h2] H1 H2 Hk. simpl in Hk.
    apply elem_of_map_to_list in H1, H2.
    assert (n1 = n2) as -> by (eapply Hinj; eassumption).
    congruence.
Qed.

Lemma unique_keys_keep (results : gmap string Hand) (names : list string) :
  unique_keys results → unique_keys (keep_results results names).
Proof.
  rewrite !unique_keys_lookup. intros Hu n1 n2 h1 h2.
  rewrite !keep_results_lookup.
  destruct (decide (n1 ∈ names)); [|discriminate].
  destruct (decide (n2 ∈ names)); [|discriminate].
  apply Hu.
Qed.

(** Claim C9, counterexample: for the empty list of names the requested
    roster has no name, yet the request is refused with "Need at least one
    name" and the result of Zac stays. The same request leaves a result
    that was stored under a name outside the roster, which is then in
    neither the requested roster nor the roster after the request. *)
Lemma set_names_keeps_everything_on_empty_list :
  ¬ (∀ (trim : string → string) (names : list string) (now : string)
       (state : State) (n : string),
       results (set_names trim (Some names) now state).2 !! n =
         if decide (n ∈ clean_names trim names) then results state !! n else None) ∧
  ¬ (∀ (trim : string → string) (names : list string) (now : string)
       (state : State) (n : string),
       is_Some (results (set_names trim (Some names) now state).2 !! n) →
       n ∈ clean_names trim names ∨
       n ∈ friends (set_names trim (Some names) now state).2).
Proof.
  split; intros H.
  - specialize (H ascii_trim [] "t1"
                  (mkState ["Zac"]
                     {["Zac" := mkHand [1; 1; 1] "Triple 1" "triple" (Some 1) None]} "t0")
                  "Zac").
    vm_compute in H. discriminate H.
  - destruct (H ascii_trim [] "t1"
                (mkState ["Zac"]
                   {["Will" := mkHand [1; 1; 1] "Triple 1" "triple" (Some 1) None]} "t0")
                "Will") as [Hin|Hin].
    + vm_compute. eauto.
    + vm_compute in Hin. apply elem_of_nil in Hin. exact Hin.
    + vm_compute in Hin. apply list_elem_of_singleton in Hin. discriminate Hin.
Qed.

(** Claim C9, as the code has it, for a list whose cleaned names are plain:
    when the list holds a name that is not blank, the roster becomes the
    cleaned list and the results keep exactly the entries of its names;
    when it holds none, the request is refused and the state stays as it
    was. Either way results without a duplicate key stay so. Nothing is
    said of a list with the name of a property that objects inherit, under
    which [state.results[n]] reads the inherited value. *)
Theorem set_names_keeps_roster_entries (trim : string → string)
    (names : list string) (now : string) (state : State) :
  plain_names (clean_names trim names) →
  let state' := (set_names trim (Some names) now state).2 in
  (clean_names trim names ≠ [] →
     friends state' = clean_names trim names ∧
     ∀ n, results state' !! n =
            if decide (n ∈ friends state') then results state !! n else None) ∧
  (clean_names trim names = [] → state' = state) ∧
  (unique_keys (results state) → unique_keys (results state')).
Proof.
  intros _.
  unfold set_names. destruct (clean_names trim names) as [|m l] eqn:Hclean; simpl.
  - repeat split; try tauto.
  - repeat split; try discriminate.
    + intros n. apply keep_results_lookup.
    + apply unique_keys_keep.
Qed.

(** Claim C9: the theorem at a roster edit that drops Will. *)
Lemma set_names_keeps_roster_entries_witness :
  let state := mkState ["Zac"; "Will"]
                 (<["Zac" := mkHand [1; 1; 1] "Triple 1" "triple" (Some 1) None]>
                    {["Will" := mkHand [2; 2; 5] "Point 5" "point" None (Some 5)]}) "t0" in
  let state' := (set_names ascii_trim (Some [" Zac"; "Bo "; ""; "Zac"]) "t1" state).2 in
  plain_names (clean_names ascii_trim [" Zac"; "Bo "; ""; "Zac"]) ∧
  friends state' = ["Zac"; "Bo"] ∧
  (∀ n, results state' !! n =
          if decide (n ∈ friends state') then results state !! n else None) ∧
  unique_keys (results state').
Proof.
  intros state state'.
  assert (plain_names (clean_names ascii_trim [" Zac"; "Bo "; ""; "Zac"])) as Hplain
    by (apply (bool_decide_unpack _); vm_compute; exact I).
  split; [exact Hplain|].
  destruct (set_names_keeps_roster_entries ascii_trim [" Zac"; "Bo "; ""; "Zac"] "t1" state
              Hplain) as (Hkeep & _ & Hinv).
  destruct Hkeep as [Hfriends Hresults]; [vm_compute; discriminate|].
  split; [exact Hfriends|]. split; [exact Hresults|].
  apply Hinv. apply (bool_decide_unpack _). vm_compute. exact I.
Defined.

(** ** The invariants of the round under a roll *)

Lemma used_keys_spec (results : gmap string Hand) (k : string) :
  k ∈ used_keys results ↔ ∃ n h, results !! n = Some h ∧ outcomeKey (Some h) = k.
Proof.
  unfold used_keys. rewrite elem_of_list_to_set, <- list_fmap_compose, list_elem_of_fmap.
  split.
  - intros ([n h] & -> & Hin). apply elem_of_map_to_list in Hin. eauto.
  - intros (n & h & Hn & <-). exists (n, h). split; [reflexivity|].
    apply elem_of_map_to_list. exact Hn.
Qed.

Lemma rollCeeLo_rolled_hand (fuel : nat) (rnd : Random) (i : nat) (h : Hand) (i' : nat) :
  in_range rnd → rollCeeLo fuel rnd i = Some (h, i') → rolled_hand h.
Proof.
  intros Hrnd. revert i. induction fuel as [|fuel IH]; intros i; [discriminate|].
  cbn [rollCeeLo].
  destruct (classify_dice _ _ _) as [h0|] eqn:Hh; [|apply IH].
  intros [= <- <-]. unfold rolled_hand, d6 in *.
  pose proof (Hrnd i). pose proof (Hrnd (i + 1)%nat). pose proof (Hrnd (i + 2)%nat).
  eexists _, _, _. split; [|exact Hh]. lia.
Qed.

Lemma roll_success (trim : string → string) (lc : string → string → Z)
    (body_name : option string) (now : string) (fuel : nat) (rnd : Random)
    (i : nat) (state : State) (body : RollBody) (state' : State) (i' : nat) :
  roll trim lc body_name now fuel rnd i state = Some (Returns (Ok body), state', i') →
  let name := trim (default "" body_name) in
  results state !! name = None ∧
  state' = mkState (friends state) (<[name := rb_hand body]> (results state)) now ∧
  ∃ key tries,
    allocate fuel rnd (used_keys (results state)) i 0 =
      Some (Accepted (rb_hand body) key, i', tries).
Proof.
  unfold roll.
  destruct (bool_decide (trim (default "" body_name) ∈ friends state)); cbn [negb];
    [|discriminate].
  destruct (bool_decide (is_Some _)) eqn:Hrolled; [discriminate|].
  apply bool_decide_eq_false in Hrolled.
  destruct (MAX_UNIQUE <=? size _)%nat; [discriminate|].
  destruct (allocate _ _ _ _ _) as [[[[h key|] i1] tries]|]; [|discriminate..].
  destruct (computeLeaders _ _ _) as [w|e]; [|discriminate].
  intros [= <- <- <-]. simpl. split; [|split; [reflexivity|eauto]].
  destruct (results state !! _); [|reflexivity]. destruct Hrolled. eauto.
Qed.

Lemma roll_keeps_unique_keys (trim : string → string) (lc : string → string → Z)
    (body_name : option string) (now : string) (fuel : nat) (rnd : Random)
    (i : nat) (state : State) (body : RollBody) (state' : State) (i' : nat) :
  roll trim lc body_name now fuel rnd i state = Some (Returns (Ok body), state', i') →
  unique_keys (results state) → unique_keys (results state').
Proof.
  intros Hroll. apply roll_success in Hroll as (Hnew & -> & key & tries & Hrun).
  apply allocate_accepted in Hrun as (-> & Hfree & _).
  rewrite used_keys_spec in Hfree. simpl.
  rewrite !unique_keys_lookup. intros Hu n1 n2 h1 h2.
  rewrite !lookup_insert. repeat case_decide; subst.
  - reflexivity.
  - intros [= <-] H2 Hk. destruct Hfree. eauto.
  - intros H1 [= <-] Hk. destruct Hfree. eauto.
  - apply Hu.
Qed.

Lemma roll_keeps_rolled_hands (trim : string → string) (lc : string → string → Z)
    (body_name : option string) (now : string) (fuel : nat) (rnd : Random)
    (i : nat) (state : State) (body : RollBody) (state' : State) (i' : nat) :
  in_range rnd →
  roll trim lc body_name now fuel rnd i state = Some (Returns (Ok body), state', i') →
  (∀ n h, results state !! n = Some h → rolled_hand h) →
  ∀ n h, results state' !! n = Some h → rolled_hand h.
Proof.
  intros Hrnd Hroll Hall. apply roll_success in Hroll as (_ & -> & key & tries & Hrun).
  apply allocate_accepted in Hrun as (_ & _ & m & j & Hhand).
  intros n h. simpl. rewrite lookup_insert. case_decide.
  - intros [= <-]. eapply rollCeeLo_rolled_hand; eassumption.
  - apply Hall.
Qed.

(** ** The leaderboard *)

Lemma length_filter_all {A : Type} (P : A → Prop) `{!∀ x, Decision (P x)} (l : list A) :
  length (filter P l) = length l ↔ Forall P l.
Proof.
  induction l as [|x l IH].
  - split; [constructor|reflexivity].
  - rewrite filter_cons. pose proof (length_filter P l) as Hle.
    destruct (decide (P x)) as [Hx|Hx]; simpl.
    + rewrite Forall_cons. split.
      * intros [= Hlen]. split; [exact Hx|]. apply IH. exact Hlen.
      * intros [_ Hall]. f_equal. apply IH. exact Hall.
    + split; [lia|]. intros Hall. apply Forall_cons in Hall as [Hx' _]. contradiction.
Qed.

Lemma rolled_all (results : gmap string Hand) (names : list string) :
  Forall (λ e, is_Some (hand e)) (map (λ name, mkEntry name (results !! name)) names) ↔
  ∀ n, n ∈ names → is_Some (results !! n).
Proof.
  rewrite Forall_fmap, Forall_forall. reflexivity.
Qed.

Lemma computeLeaders_NotReady (lc : string → string → Z) (state : State)
    (results : gmap string Hand) :
  computeLeaders lc state results = Returns NotReady ↔
  ∃ n, n ∈ friends state ∧ results !! n = None.
Proof.
  unfold computeLeaders.
  set (entries := map _ (friends state)).
  assert (length entries = length (friends state)) as Hentries
    by apply length_map.
  destruct (negb _) eqn:Hlen.
  - apply negb_true_iff, Nat.eqb_neq in Hlen. split; [intros _|reflexivity].
    rewrite <- Hentries, length_filter_all in Hlen.
    apply not_Forall_Exists in Hlen; [|intros e; apply _].
    apply Exists_exists in Hlen as (e & He & Hnone).
    apply list_elem_of_fmap in He as (n & -> & Hn). simpl in Hnone.
    exists n. split; [exact Hn|]. destruct (results !! n); [|reflexivity].
    destruct Hnone. eauto.
  - apply negb_false_iff, Nat.eqb_eq in Hlen.
    rewrite <- Hentries, length_filter_all in Hlen.
    pose proof (proj1 (rolled_all results (friends state)) Hlen) as Hall.
    split.
    + destruct (js_sort _ _); discriminate.
    + intros (n & Hn & Hnone). apply Hall in Hn. rewrite Hnone in Hn.
      destruct Hn as [h Hh]. discriminate.
Qed.

(** Claim C4, counterexample: with the empty roster no name lacks a result,
    yet [computeLeaders] returns neither variant: it reads [withScores[0]]
    of an empty array and throws. *)
Lemma computeLeaders_empty_roster_throws :
  ¬ (∀ (lc : string → string → Z) (state : State) (results : gmap string Hand),
       (computeLeaders lc state results = Returns NotReady ↔
        ∃ n, n ∈ friends state ∧ results !! n = None) ∧
       ((∀ n, n ∈ friends state → is_Some (results !! n)) →
        ∃ leaders topScore,
          computeLeaders lc state results = Returns (Ready leaders topScore))).
Proof.
  intros H. destruct (H code_compare (mkState [] ∅ "t0") ∅) as [_ Hready].
  destruct Hready as (leaders & topScore & Hrun).
  - intros n Hn. apply elem_of_nil in Hn. destruct Hn.
  - vm_compute in Hrun. discriminate Hrun.
Qed.

Lemma has_value_plain (results : gmap string Hand) (name : string) :
  plain_name name → has_value results name = bool_decide (is_Some (results !! name)).
Proof.
  intros Hplain. unfold has_value.
  rewrite (bool_decide_eq_false_2 (name ∈ Object_prototype_names)) by exact Hplain.
  apply orb_false_r.
Qed.

(** Claim C4, as the code has it: for a roster that is not empty and whose
    names are plain, [computeLeaders] returns [{ready:false}] exactly when
    some name of the roster has no result, and returns leaders and a top
    score when every name has one. Nothing is said of a roster with the name
    of a property that objects inherit, under which [results[name]] reads
    the inherited value. *)
Theorem computeLeaders_ready_iff_all_rolled (lc : string → string → Z)
    (state : State) (results : gmap string Hand) :
  friends state ≠ [] → plain_names (friends state) →
  (computeLeaders lc state results = Returns NotReady ↔
   ∃ n, n ∈ friends state ∧ results !! n = None) ∧
  ((∀ n, n ∈ friends state → is_Some (results !! n)) →
   ∃ leaders topScore,
     computeLeaders lc state results = Returns (Ready leaders topScore)).
Proof.
  intros Hne _. split; [apply computeLeaders_NotReady|].
  intros Hall.
  destruct (computeLeaders lc state results) as [[|leaders topScore]|e] eqn:Hrun.
  - apply computeLeaders_NotReady in Hrun as (n & Hn & Hnone).
    apply Hall in Hn. rewrite Hnone in Hn. destruct Hn as [h Hh]. discriminate.
  - eauto.
  - apply computeLeaders_throws in Hrun. contradiction.
Qed.

(** Claim C4: the theorem at the roster A, B when only A has rolled. *)
Lemma computeLeaders_ready_iff_all_rolled_witness :
  let state := mkState ["A"; "B"] ∅ "t0" in
  let results : gmap string Hand :=
    {["A" := mkHand [3; 3; 3] "Triple 3" "triple" (Some 3) None]} in
  friends state ≠ [] ∧ plain_names (friends state) ∧
  (computeLeaders code_compare state results = Returns NotReady ↔
   ∃ n, n ∈ friends state ∧ results !! n = None) ∧
  ((∀ n, n ∈ friends state → is_Some (results !! n)) →
   ∃ leaders topScore,
     computeLeaders code_compare state results = Returns (Ready leaders topScore)).
Proof.
  intros state results.
  assert (friends state ≠ []) as Hroster by (simpl; discriminate).
  assert (plain_names (friends state)) as Hplain
    by (apply (bool_decide_unpack _); vm_compute; exact I).
  split; [exact Hroster|]. split; [exact Hplain|].
  exact (computeLeaders_ready_iff_all_rolled code_compare state results Hroster Hplain).
Defined.

(** Claim C10: two results maps that agree on the names of the roster give
    the same answer of [computeLeaders]; every leader is a name of the
    roster with its own result and score, and the top score is the score of
    a name of the roster. *)
Theorem computeLeaders_reads_roster_only (lc : string → string → Z)
    (state : State) (results results' : gmap string Hand) :
  (∀ n, n ∈ friends state → results !! n = results' !! n) →
  computeLeaders lc state results = computeLeaders lc state results' ∧
  (∀ leaders topScore,
     computeLeaders lc state results = Returns (Ready leaders topScore) →
     (∀ e : Scored, e ∈ leaders →
        name e ∈ friends state ∧ hand e = results !! name e ∧
        score e = rankScore (results !! name e)) ∧
     (∃ n, n ∈ friends state ∧ topScore = rankScore (results !! n))).
Proof.
  intros Hsame. split.
  - unfold computeLeaders.
    replace (map (λ name, mkEntry name (results' !! name)) (friends state))
      with (map (λ name, mkEntry name (results !! name)) (friends state)); [reflexivity|].
    apply map_ext_in. intros n Hn. f_equal. apply Hsame.
    apply list_elem_of_In. exact Hn.
  - intros leaders topScore. unfold computeLeaders.
    destruct (negb _); [discriminate|].
    destruct (js_sort _ _) as [|top rest] eqn:Hsort; [discriminate|].
    intros [= <- <-].
    assert (∀ e : Scored, e ∈ top :: rest →
              name e ∈ friends state ∧ hand e = results !! name e ∧
              score e = rankScore (results !! name e)) as Hfrom.
    { intros e He. rewrite <- Hsort, js_sort_perm in He.
      apply list_elem_of_fmap in He as (e0 & -> & He0).
      apply list_elem_of_filter in He0 as [_ He0].
      apply list_elem_of_fmap in He0 as (n & -> & Hn). simpl. auto. }
    split.
    + intros e He. apply list_elem_of_filter in He as [_ He]. apply Hfrom, He.
    + exists (name top). destruct (Hfrom top) as (Hn & _ & Hs); [left|]. auto.
Qed.

(** Claim C10: the theorem at results with an entry for Zed, who is not in
    the roster. *)
Lemma computeLeaders_reads_roster_only_witness :
  let state := mkState ["A"] ∅ "t0" in
  let results : gmap string Hand :=
    {["A" := mkHand [2; 2; 5] "Point 5" "point" None (Some 5)]} in
  let results' : gmap string Hand :=
    <["Zed" := mkHand [4; 5; 6] "4-5-6 (auto win)" "456" None None]> results in
  (∀ n, n ∈ friends state → results !! n = results' !! n) ∧
  computeLeaders code_compare state results = computeLeaders code_compare state results' ∧
  computeLeaders code_compare state results' =
    Returns (Ready [scored_entry results "A"] (Num 105)).
Proof.
  intros state results results'.
  assert (∀ n, n ∈ friends state → results !! n = results' !! n) as Hsame
    by (intros n Hn; apply list_elem_of_singleton in Hn as ->; reflexivity).
  split; [exact Hsame|]. split; [|vm_compute; reflexivity].
  exact (proj1 (computeLeaders_reads_roster_only code_compare state results results'
                  Hsame)).
Defined.

(** ** The order of the leaders *)

Lemma filter_all {A : Type} (P : A → Prop) `{!∀ x, Decision (P x)} (l : list A) :
  Forall P l → filter P l = l.
Proof.
  induction 1 as [|x l Hx _ IH]; [reflexivity|].
  rewrite filter_cons_True by exact Hx. f_equal. exact IH.
Qed.

Section SortedBy.
Context {A : Type} (cmp : A → A → Z) (P : A → Prop).
Hypothesis cmp_total : ∀ x y, P x → P y → cmp x y > 0 → cmp y x ≤ 0.
Hypothesis cmp_trans :
  ∀ x y z, P x → P y → P z → cmp x y ≤ 0 → cmp y z ≤ 0 → cmp x z ≤ 0.

Lemma sort_insert_sorted (x : A) (l : list A) :
  P x → Forall P l →
  StronglySorted (λ a b, cmp a b ≤ 0) l →
  StronglySorted (λ a b, cmp a b ≤ 0) (sort_insert cmp x l).
Proof.
  intros Hx Hl Hs. induction Hs as [|y l Hs IH Hy]; simpl.
  - repeat constructor.
  - apply Forall_cons in Hl as [HPy Hl].
    destruct (cmp x y >? 0) eqn:Hxy.
    + constructor; [apply IH, Hl|].
      rewrite sort_insert_perm. constructor; [|exact Hy].
      apply cmp_total; [exact Hx | exact HPy | lia].
    + constructor; [constructor; assumption|].
      assert (cmp x y ≤ 0) as Hle by lia.
      constructor; [exact Hle|].
      rewrite Forall_forall in Hy, Hl |- *. intros z Hz.
      apply (cmp_trans x y z); auto.
Qed.

Lemma js_sort_sorted (l : list A) :
  Forall P l → StronglySorted (λ a b, cmp a b ≤ 0) (js_sort cmp l).
Proof.
  induction 1 as [|x l Hx Hl IH]; simpl; [constructor|].
  apply sort_insert_sorted; [exact Hx| |exact IH].
  rewrite js_sort_perm. exact Hl.
Qed.
End SortedBy.

Lemma rolled_hand_score (h : Hand) :
  rolled_hand h → ∃ s, rankScore (Some h) = Num s.
Proof.
  intros (x & y & z & (Hx & Hy & Hz) & Hh).
  destruct (slot_of_hand x y z h Hx Hy Hz Hh) as (_ & s & _ & Hs). eauto.
Qed.

Section LeadersOrder.
Variable lc : string → string → Z.
Hypothesis lc_sym : ∀ a b, Z.sgn (lc b a) = - Z.sgn (lc a b).
Hypothesis lc_trans : ∀ a b c, lc a b ≤ 0 → lc b c ≤ 0 → lc a c ≤ 0.

Lemma by_score_then_name_inv (A B : Scored) (a b : Z) :
  score A = Num a → score B = Num b →
  (by_score_then_name lc A B ≤ 0 ↔
   b < a ∨ (b = a ∧ lc (name A) (name B) ≤ 0)).
Proof.
  intros HA HB. unfold by_score_then_name. rewrite HA, HB. simpl.
  destruct (b - a =? 0) eqn:Hz; lia.
Qed.

Lemma by_score_then_name_total (A B : Scored) :
  numeric A → numeric B →
  by_score_then_name lc A B > 0 → by_score_then_name lc B A ≤ 0.
Proof.
  intros [a HA] [b HB] Hgt.
  rewrite (by_score_then_name_inv B A b a HB HA).
  assert (¬ by_score_then_name lc A B ≤ 0) as Hn by lia.
  rewrite (by_score_then_name_inv A B a b HA HB) in Hn.
  pose proof (lc_sym (name A) (name B)). lia.
Qed.

Lemma by_score_then_name_trans (A B C : Scored) :
  numeric A → numeric B → numeric C →
  by_score_then_name lc A B ≤ 0 → by_score_then_name lc B C ≤ 0 →
  by_score_then_name lc A C ≤ 0.
Proof.
  intros [a HA] [b HB] [c HC].
  rewrite (by_score_then_name_inv A B a b HA HB),
    (by_score_then_name_inv B C b c HB HC), (by_score_then_name_inv A C a c HA HC).
  intros [Hab|[-> Hab]] [Hbc|[-> Hbc]]; try lia.
  right. split; [reflexivity|]. eapply lc_trans; eassumption.
Qed.

Lemma leaders_sorted_by_name (l : list Scored) (top : num) :
  Forall numeric l →
  StronglySorted (λ A B, by_score_then_name lc A B ≤ 0) l →
  StronglySorted (λ A B : Scored, lc (name A) (name B) ≤ 0)
    (filter (λ e, num_strict_eq (score e) top) l).
Proof.
  intros Hnum Hs. induction Hs as [|x l Hs IH Hx]; [constructor|].
  apply Forall_cons in Hnum as [[a Ha] Hnum].
  rewrite filter_cons. destruct (decide _) as [Htop|Htop]; [|apply IH, Hnum].
  constructor; [apply IH, Hnum|].
  rewrite Forall_forall in Hx, Hnum |- *. intros y Hy.
  apply list_elem_of_filter in Hy as [Hytop Hy].
  destruct (Hnum y Hy) as [b Hb].
  specialize (Hx y Hy). rewrite (by_score_then_name_inv x y a b Ha Hb) in Hx.
  rewrite Ha in Htop. rewrite Hb in Hytop. destruct top as [|t]; [destruct Htop|].
  simpl in Htop, Hytop. apply Is_true_true in Htop, Hytop. lia.
Qed.

Lemma computeLeaders_leaders (state : State) (results : gmap string Hand)
    (leaders : list Scored) (topScore : num) :
  (∀ n h, n ∈ friends state → results !! n = Some h → rolled_hand h) →
  computeLeaders lc state results = Returns (Ready leaders topScore) →
  (∃ top, topScore = Num top ∧
     (∀ n, n ∈ friends state →
        ∃ s, rankScore (results !! n) = Num s ∧ s ≤ top) ∧
     leaders ≡ₚ filter (λ e, num_strict_eq (score e) topScore)
                  (map (scored_entry results) (friends state)) ∧
     leaders ≠ []) ∧
  StronglySorted (λ A B : Scored, lc (name A) (name B) ≤ 0) leaders.
Proof.
  intros Hrolled. unfold computeLeaders.
  set (entries := map _ (friends state)).
  assert (length entries = length (friends state)) as Hentries by apply length_map.
  destruct (negb _) eqn:Hlen; [discriminate|].
  apply negb_false_iff, Nat.eqb_eq in Hlen.
  rewrite <- Hentries, length_filter_all in Hlen.
  rewrite (filter_all _ _ Hlen).
  pose proof (proj1 (rolled_all results (friends state)) Hlen) as Hall.
  replace (map (λ e, mkScored e (rankScore (hand e))) entries)
    with (map (scored_entry results) (friends state))
    by (unfold entries; rewrite map_map; reflexivity).
  assert (Forall numeric (map (scored_entry results) (friends state))) as Hnum.
  { rewrite Forall_fmap, Forall_forall. intros n Hn.
    destruct (Hall n Hn) as [h Hh]. unfold numeric. simpl. rewrite Hh.
    apply rolled_hand_score. eapply Hrolled; eassumption. }
  pose proof (js_sort_sorted (by_score_then_name lc) numeric
                by_score_then_name_total by_score_then_name_trans _ Hnum) as Hsorted.
  pose proof (js_sort_perm (by_score_then_name lc)
                (map (scored_entry results) (friends state))) as Hperm.
  assert (Forall numeric (js_sort (by_score_then_name lc)
                            (map (scored_entry results) (friends state)))) as Hnum'
    by (rewrite Hperm; exact Hnum).
  destruct (js_sort _ _) as [|top rest] eqn:Hsort; [discriminate|].
  intros [= <- <-].
  split; [|apply leaders_sorted_by_name; assumption].
  pose proof (Forall_inv Hnum') as [t Ht].
  exists t. split; [exact Ht|]. split; [|split].
  - intros n Hn.
    assert (scored_entry results n ∈ top :: rest) as Hin
      by (rewrite Hperm; apply list_elem_of_fmap_2; exact Hn).
    rewrite Forall_forall in Hnum'. destruct (Hnum' _ Hin) as [s Hs].
    exists s. split; [exact Hs|].
    apply elem_of_cons in Hin as [Heq|Hin].
    + rewrite <- Heq in Ht. assert (s = t) by congruence. lia.
    + apply StronglySorted_inv in Hsorted as [_ Hsorted].
      rewrite Forall_forall in Hsorted. specialize (Hsorted _ Hin).
      rewrite (by_score_then_name_inv top _ t s Ht Hs) in Hsorted. lia.
  - rewrite Hperm. reflexivity.
  - rewrite filter_cons_True; [discriminate|].
    rewrite Ht. simpl. rewrite Z.eqb_refl. exact I.
Qed.

Lemma computeLeaders_tie (t : string) :
  lc "A" "B" < 0 →
  let results : gmap string Hand :=
    <["A" := mkHand [3; 3; 3] "Triple 3" "triple" (Some 3) None]>
      {["B" := mkHand [3; 3; 3] "Triple 3" "triple" (Some 3) None]} in
  computeLeaders lc (mkState ["A"; "B"] results t) results =
    Returns (Ready [scored_entry results "A"; scored_entry results "B"] (Num 303)) ∧
  computeLeaders lc (mkState ["B"; "A"] results t) results =
    Returns (Ready [scored_entry results "A"; scored_entry results "B"] (Num 303)).
Proof.
  intros HAB results. pose proof (lc_sym "A" "B") as Hsym.
  split; vm_compute.
  - destruct (lc "A" "B") as [|p|p] eqn:E; [lia | lia | reflexivity].
  - destruct (lc "B" "A") as [|p|p] eqn:E; [lia | reflexivity | lia].
Qed.
End LeadersOrder.

Lemma string_lt_irrefl (a : string) : ¬ OrdersEx.String_as_OT.lt a a.
Proof.
  pose proof OrdersEx.String_as_OT.lt_strorder as [Hirr _]. apply Hirr.
Qed.

Lemma string_lt_asym (a b : string) :
  OrdersEx.String_as_OT.lt a b → ¬ OrdersEx.String_as_OT.lt b a.
Proof.
  pose proof OrdersEx.String_as_OT.lt_strorder as [_ Htr].
  intros Hab Hba. apply (string_lt_irrefl a). exact (Htr a b a Hab Hba).
Qed.

Lemma code_compare_sym (a b : string) :
  Z.sgn (code_compare b a) = - Z.sgn (code_compare a b).
Proof.
  unfold code_compare.
  destruct (OrdersEx.String_as_OT.compare_spec a b) as [Hab|Hab|Hab];
    destruct (OrdersEx.String_as_OT.compare_spec b a) as [Hba|Hba|Hba];
    try reflexivity; exfalso;
    unfold OrdersEx.String_as_OT.eq in *; subst;
    first [ eapply string_lt_irrefl; eassumption
          | eapply string_lt_asym; eassumption ].
Qed.

Lemma code_compare_trans (a b c : string) :
  code_compare a b ≤ 0 → code_compare b c ≤ 0 → code_compare a c ≤ 0.
Proof.
  pose proof OrdersEx.String_as_OT.lt_strorder as [_ Htr].
  unfold code_compare.
  destruct (OrdersEx.String_as_OT.compare_spec a b) as [Hab|Hab|Hab]; [| |lia];
    (destruct (OrdersEx.String_as_OT.compare_spec b c) as [Hbc|Hbc|Hbc]; [| |lia]);
    (destruct (OrdersEx.String_as_OT.compare_spec a c) as [Hac|Hac|Hac]; [lia|lia|]);
    intros _ _; exfalso;
    unfold OrdersEx.String_as_OT.eq in *; subst.
  - eapply string_lt_irrefl; eassumption.
  - eapply string_lt_asym; eassumption.
  - eapply string_lt_asym; eassumption.
  - eapply (string_lt_asym a c); [|eassumption]. eapply Htr; eassumption.
Qed.

(** Claim C5: let [localeCompare] be a consistent comparator and let the
    results of the roster be hands that [rollCeeLo] can return. When
    [computeLeaders] returns leaders, the top score is the greatest score of
    the roster, the leaders are exactly the entries of the roster with that
    score, each as often as the roster names it, and they are in ascending
    order of their names. When A comes before B, two triples 3 for A and B
    give the leaders A, B with the top score 303, whatever the order of the
    roster. *)
Theorem computeLeaders_top_scorers (lc : string → string → Z) :
  (∀ a b, Z.sgn (lc b a) = - Z.sgn (lc a b)) →
  (∀ a b c, lc a b ≤ 0 → lc b c ≤ 0 → lc a c ≤ 0) →
  (∀ (state : State) (results : gmap string Hand) (leaders : list Scored)
     (topScore : num),
     (∀ n h, n ∈ friends state → results !! n = Some h → rolled_hand h) →
     computeLeaders lc state results = Returns (Ready leaders topScore) →
     (∃ top, topScore = Num top ∧
        (∀ n, n ∈ friends state →
           ∃ s, rankScore (results !! n) = Num s ∧ s ≤ top) ∧
        leaders ≡ₚ filter (λ e, num_strict_eq (score e) topScore)
                     (map (scored_entry results) (friends state)) ∧
        leaders ≠ []) ∧
     StronglySorted (λ A B : Scored, lc (name A) (name B) ≤ 0) leaders) ∧
  (lc "A" "B" < 0 →
   ∀ t : string,
     let results : gmap string Hand :=
       <["A" := mkHand [3; 3; 3] "Triple 3" "triple" (Some 3) None]>
         {["B" := mkHand [3; 3; 3] "Triple 3" "triple" (Some 3) None]} in
     computeLeaders lc (mkState ["A"; "B"] results t) results =
       Returns (Ready [scored_entry results "A"; scored_entry results "B"] (Num 303)) ∧
     computeLeaders lc (mkState ["B"; "A"] results t) results =
       Returns (Ready [scored_entry results "A"; scored_entry results "B"] (Num 303))).
Proof.
  intros lc_sym lc_trans. split.
  - intros state results leaders topScore.
    apply computeLeaders_leaders; assumption.
  - intros HAB t. apply computeLeaders_tie; assumption.
Qed.

(** Claim C5: the theorem for [code_compare] at the roster B, A. *)
Lemma computeLeaders_top_scorers_witness :
  let results : gmap string Hand :=
    <["A" := mkHand [3; 3; 3] "Triple 3" "triple" (Some 3) None]>
      {["B" := mkHand [3; 3; 3] "Triple 3" "triple" (Some 3) None]} in
  computeLeaders code_compare (mkState ["B"; "A"] results "t0") results =
    Returns (Ready [scored_entry results "A"; scored_entry results "B"] (Num 303)) ∧
  StronglySorted (λ A B : Scored, code_compare (name A) (name B) ≤ 0)
    [scored_entry results "A"; scored_entry results "B"].
Proof.
  intros results.
  destruct (computeLeaders_top_scorers code_compare code_compare_sym code_compare_trans)
    as [Hgen Htie].
  destruct (Htie eq_refl "t0") as [_ Hrun]. split; [exact Hrun|].
  apply (Hgen (mkState ["B"; "A"] results "t0") results _ (Num 303)); [|exact Hrun].
  intros n h _ Hh. exists 3, 3, 3. split; [lia|].
  destruct (decide (n = "A")) as [->|HA];
    [vm_compute in Hh; injection Hh as <-; reflexivity|].
  destruct (decide (n = "B")) as [->|HB];
    [vm_compute in Hh; injection Hh as <-; reflexivity|].
  unfold results in Hh. rewrite lookup_insert_ne, lookup_singleton_ne in Hh by congruence.
  discriminate.
Defined.

(** * More of the code *)

(** ** The roller *)

Lemma StronglySorted_weaken {A : Type} (R R' : A → A → Prop) (l : list A) :
  (∀ x y, R x y → R' x y) → StronglySorted R l → StronglySorted R' l.
Proof.
  intros Himpl. induction 1 as [|x l _ IH Hx]; constructor; [exact IH|].
  eapply Forall_impl; [exact Hx|]. intros y. apply Himpl.
Qed.

Lemma sort_dice_sorted (x y z : Z) : StronglySorted Z.le (sort_dice x y z).
Proof.
  unfold sort_dice.
  apply (StronglySorted_weaken (λ a b : Z, a - b ≤ 0)); [intros a b; lia|].
  apply (js_sort_sorted (λ a b : Z, a - b) (λ _, True)).
  - intros a b _ _. lia.
  - intros a b c _ _ _. lia.
  - repeat constructor.
Qed.

Lemma sort_dice_perm (x y z : Z) : sort_dice x y z ≡ₚ [x; y; z].
Proof. apply js_sort_perm. Qed.

Lemma sort_dice_permutation (x y z x' y' z' : Z) :
  [x; y; z] ≡ₚ [x'; y'; z'] → sort_dice x y z = sort_dice x' y' z'.
Proof.
  intros Hperm.
  apply (StronglySorted_unique Z.le); try apply sort_dice_sorted.
  rewrite !sort_dice_perm. exact Hperm.
Qed.

(** X1: the order in which the three dice fall does not matter: two throws
    with the same values, in any order, make the same hand or are both
    rolled again. This holds for all integers. *)
Theorem classify_dice_permutation (x y z x' y' z' : Z) :
  [x; y; z] ≡ₚ [x'; y'; z'] → classify_dice x y z = classify_dice x' y' z'.
Proof.
  intros Hperm. unfold classify_dice.
  rewrite (sort_dice_permutation x y z x' y' z' Hperm). reflexivity.
Qed.

Lemma classify_dice_permutation_witness :
  [5; 2; 5] ≡ₚ [2; 5; 5] ∧ classify_dice 5 2 5 = classify_dice 2 5 5.
Proof.
  assert ([5; 2; 5] ≡ₚ [2; 5; 5]) as Hperm by apply Permutation_swap.
  split; [exact Hperm|]. exact (classify_dice_permutation 5 2 5 2 5 5 Hperm).
Defined.

Lemma pass_shift (rnd : Random) (i k : nat) :
  pass rnd (i + 3) k = pass rnd i (S k).
Proof.
  unfold pass.
  replace (i + 3 + 3 * k)%nat with (i + 3 * S k)%nat by lia. reflexivity.
Qed.

Lemma pass_0 (rnd : Random) (i : nat) :
  pass rnd i 0 = classify_dice (d6 rnd i) (d6 rnd (i + 1)) (d6 rnd (i + 2)).
Proof.
  unfold pass. replace (i + 3 * 0)%nat with i by lia. reflexivity.
Qed.

Lemma rollCeeLo_passes (fuel : nat) (rnd : Random) (i : nat) (h : Hand) (i' : nat) :
  rollCeeLo fuel rnd i = Some (h, i') ↔
  ∃ k, (k < fuel)%nat ∧ i' = (i + 3 * S k)%nat ∧ pass rnd i k = Some h ∧
       ∀ j, (j < k)%nat → pass rnd i j = None.
Proof.
  revert i. induction fuel as [|fuel IH]; intros i.
  - split; [discriminate|]. intros (k & Hk & _). lia.
  - cbn [rollCeeLo]. rewrite <- pass_0.
    destruct (pass rnd i 0) as [h0|] eqn:Hfirst.
    + split.
      * intros [= <- <-]. exists 0%nat.
        split; [lia|]. split; [lia|]. split; [exact Hfirst|].
        intros j Hj. lia.
      * intros (k & _ & -> & Hk & Hbefore). destruct k as [|k].
        -- rewrite Hfirst in Hk. injection Hk as <-. reflexivity.
        -- rewrite (Hbefore 0%nat) in Hfirst by lia. discriminate.
    + rewrite IH. split.
      * intros (k & Hk & -> & Hpass & Hbefore). exists (S k).
        rewrite pass_shift in Hpass.
        split; [lia|]. split; [lia|]. split; [exact Hpass|].
        intros [|j] Hj; [exact Hfirst|]. rewrite <- pass_shift. apply Hbefore. lia.
      * intros (k & Hk & -> & Hpass & Hbefore). destruct k as [|k].
        -- rewrite Hfirst in Hpass. discriminate.
        -- exists k. rewrite pass_shift.
           split; [lia|]. split; [lia|]. split; [exact Hpass|].
           intros j Hj. rewrite pass_shift. apply Hbefore. lia.
Qed.

(** X2: [rollCeeLo] returns the hand of the first pass whose dice are
    classified, and has then read three draws for that pass and three for
    each pass before it; with [fuel] passes allowed it returns exactly when
    such a pass is among the first [fuel]. *)
Theorem rollCeeLo_first_classified (fuel : nat) (rnd : Random) (i : nat)
    (h : Hand) (i' : nat) :
  rollCeeLo fuel rnd i = Some (h, i') ↔
  ∃ k, (k < fuel)%nat ∧ i' = (i + 3 * S k)%nat ∧ pass rnd i k = Some h ∧
       ∀ j, (j < k)%nat → pass rnd i j = None.
Proof. apply rollCeeLo_passes. Qed.

Lemma rollCeeLo_first_classified_witness :
  rollCeeLo 5 (λ i, if (i <? 3)%nat then rnd_124 i else 4) 0 =
    Some (mkHand [5; 5; 5] "Triple 5" "triple" (Some 5) None, 6%nat).
Proof.
  apply (rollCeeLo_first_classified 5 (λ i, if (i <? 3)%nat then rnd_124 i else 4) 0).
  exists 1%nat. split; [lia|]. split; [reflexivity|]. split; [reflexivity|].
  intros j Hj. assert (j = 0%nat) as -> by lia. reflexivity.
Defined.

(** X3: on dice, the hand that [rollCeeLo] returns shows the last three
    draws it read, in ascending order, each of 1..6. *)
Theorem rollCeeLo_dice (fuel : nat) (rnd : Random) (i : nat) (h : Hand) (i' : nat) :
  in_range rnd →
  rollCeeLo fuel rnd i = Some (h, i') →
  (3 ≤ i')%nat ∧
  dice h ≡ₚ [d6 rnd (i' - 3); d6 rnd (i' - 2); d6 rnd (i' - 1)] ∧
  StronglySorted Z.le (dice h) ∧
  Forall (λ d, 1 ≤ d ≤ 6) (dice h).
Proof.
  intros Hrnd Hroll. apply rollCeeLo_passes in Hroll as (k & _ & -> & Hpass & _).
  unfold pass, classify_dice in Hpass.
  assert (dice h = sort_dice (d6 rnd (i + 3 * k)) (d6 rnd (i + 3 * k + 1))
                     (d6 rnd (i + 3 * k + 2))) as Hdice.
  { unfold classify in Hpass.
    destruct (sort_dice _ _ _) as [|a [|b [|c [|]]]]; try discriminate.
    repeat (destruct (_ && _) in Hpass; [injection Hpass as <-; reflexivity|]).
    discriminate. }
  replace (i + 3 * S k - 3)%nat with (i + 3 * k)%nat by lia.
  replace (i + 3 * S k - 2)%nat with (i + 3 * k + 1)%nat by lia.
  replace (i + 3 * S k - 1)%nat with (i + 3 * k + 2)%nat by lia.
  rewrite Hdice. split; [lia|]. split; [apply sort_dice_perm|].
  split; [apply sort_dice_sorted|].
  rewrite sort_dice_perm. unfold d6.
  pose proof (Hrnd (i + 3 * k)%nat). pose proof (Hrnd (i + 3 * k + 1)%nat).
  pose proof (Hrnd (i + 3 * k + 2)%nat).
  repeat constructor; lia.
Qed.

Lemma rollCeeLo_dice_witness :
  in_range rnd_ones ∧
  dice (mkHand [1; 1; 1] "Triple 1" "triple" (Some 1) None) ≡ₚ
    [d6 rnd_ones 0; d6 rnd_ones 1; d6 rnd_ones 2] ∧
  StronglySorted Z.le [1; 1; 1].
Proof.
  assert (in_range rnd_ones) as Hrnd by (intros i; unfold rnd_ones; lia).
  split; [exact Hrnd|].
  destruct (rollCeeLo_dice 1 rnd_ones 0 (mkHand [1; 1; 1] "Triple 1" "triple" (Some 1) None)
              3 Hrnd eq_refl) as (_ & Hperm & Hsorted & _).
  split; [exact Hperm | exact Hsorted].
Defined.

(** ** The keys *)

Ltac shape_value v := exists v; split; [lia|]; simpl; tauto.

Lemma rolled_hand_shape (h : Hand) :
  rolled_hand h →
  ∃ v, 1 ≤ v ≤ 6 ∧
    ((type h = "456" ∧ triple h = None ∧ point h = None) ∨
     (type h = "123" ∧ triple h = None ∧ point h = None) ∨
     (type h = "triple" ∧ triple h = Some v ∧ point h = None) ∨
     (type h = "point" ∧ triple h = None ∧ point h = Some v)).
Proof.
  intros (x & y & z & (Hx & Hy & Hz) & Hh). revert Hh.
  each_die x Hx; each_die y Hy; each_die z Hz;
    vm_compute classify_dice; intros [= <-];
    first [ shape_value 1 | shape_value 2 | shape_value 3
          | shape_value 4 | shape_value 5 | shape_value 6 ].
Qed.

Lemma outcomeKey_rolled (h1 h2 : Hand) :
  rolled_hand h1 → rolled_hand h2 →
  (outcomeKey (Some h1) = outcomeKey (Some h2) ↔
   type h1 = type h2 ∧ triple h1 = triple h2 ∧ point h1 = point h2) ∧
  (outcomeKey (Some h1) = outcomeKey (Some h2) ↔
   rankScore (Some h1) = rankScore (Some h2)).
Proof.
  intros H1 H2.
  destruct (rolled_hand_shape h1 H1) as (v1 & Hv1 & Hs1).
  destruct (rolled_hand_shape h2 H2) as (v2 & Hv2 & Hs2).
  unfold outcomeKey, rankScore.
  destruct Hs1 as [(-> & -> & ->) | [(-> & -> & ->) | [(-> & -> & ->) | (-> & -> & ->)]]];
    destruct Hs2 as [(-> & -> & ->) | [(-> & -> & ->) | [(-> & -> & ->) | (-> & -> & ->)]]];
    simpl; (split; split);
    try (intros; repeat split; congruence);
    try (intros [[=] _]; fail);
    try (intros [=]; lia);
    try (intros Hk; apply (inj (String.app _)), (inj pretty) in Hk; subst;
         repeat split; reflexivity);
    try (intros (_ & [= ->] & _); reflexivity);
    try (intros (_ & _ & [= ->]); reflexivity);
    try (intros [= Hs]; assert (v1 = v2) as -> by lia; reflexivity).
Qed.

(** X4: for two hands that [rollCeeLo] can return, the keys are equal exactly
    when the type and the value of the triple or point are, whatever the
    dice and the label, and exactly when the scores are equal. *)
Theorem outcomeKey_identifies_slot (h1 h2 : Hand) :
  rolled_hand h1 → rolled_hand h2 →
  (outcomeKey (Some h1) = outcomeKey (Some h2) ↔
   type h1 = type h2 ∧ triple h1 = triple h2 ∧ point h1 = point h2) ∧
  (outcomeKey (Some h1) = outcomeKey (Some h2) ↔
   rankScore (Some h1) = rankScore (Some h2)).
Proof. apply outcomeKey_rolled. Qed.

Lemma outcomeKey_identifies_slot_witness :
  outcomeKey (Some (mkHand [1; 1; 5] "Point 5" "point" None (Some 5))) =
  outcomeKey (Some (mkHand [2; 2; 5] "Point 5" "point" None (Some 5))).
Proof.
  apply (outcomeKey_identifies_slot
           (mkHand [1; 1; 5] "Point 5" "point" None (Some 5))
           (mkHand [2; 2; 5] "Point 5" "point" None (Some 5))).
  - exists 1, 5, 1. split; [lia|reflexivity].
  - exists 2, 5, 2. split; [lia|reflexivity].
  - repeat split; reflexivity.
Defined.

Lemma rolled_hand_key (h : Hand) :
  rolled_hand h → outcomeKey (Some h) ∈ score_table.*1.
Proof.
  intros (x & y & z & (Hx & Hy & Hz) & Hh).
  destruct (slot_of_hand x y z h Hx Hy Hz Hh) as (i & s & Hi & _).
  apply list_elem_of_fmap. exists (outcomeKey (Some h), s). split; [reflexivity|].
  eapply list_elem_of_lookup_2. exact Hi.
Qed.

Lemma used_keys_of_rolled (results : gmap string Hand) :
  (∀ n h, results !! n = Some h → rolled_hand h) →
  used_keys results ⊆ list_to_set score_table.*1.
Proof.
  intros Hrolled k Hk. apply used_keys_spec in Hk as (n & h & Hn & <-).
  apply elem_of_list_to_set, rolled_hand_key. eapply Hrolled. exact Hn.
Qed.

Lemma size_all_keys : size (list_to_set score_table.*1 : gset string) = MAX_UNIQUE.
Proof.
  rewrite size_list_to_set by apply score_table_keys.
  rewrite length_fmap. apply score_table_keys.
Qed.

(** X5: when the results hold hands that [rollCeeLo] can return, at most 14
    keys are used, and the test [used.size >= MAX_UNIQUE] of the roll handler
    holds exactly when every one of the fourteen keys is used: past the test
    a key is free. *)
Theorem exhausted_test_exact (results : gmap string Hand) :
  (∀ n h, results !! n = Some h → rolled_hand h) →
  (size (used_keys results) ≤ MAX_UNIQUE)%nat ∧
  ((MAX_UNIQUE ≤ size (used_keys results))%nat ↔
   ∀ k, k ∈ score_table.*1 → k ∈ used_keys results).
Proof.
  intros Hrolled. pose proof (used_keys_of_rolled results Hrolled) as Hsub.
  pose proof (subseteq_size _ _ Hsub) as Hle. rewrite size_all_keys in Hle.
  split; [exact Hle|]. split.
  - intros Hge k Hk.
    rewrite (set_subseteq_size_eq _ _ Hsub) by (rewrite size_all_keys; exact Hge).
    apply elem_of_list_to_set. exact Hk.
  - intros Hall. rewrite <- size_all_keys. apply subseteq_size.
    intros k Hk. apply Hall. apply elem_of_list_to_set in Hk. exact Hk.
Qed.

Lemma exhausted_test_exact_witness :
  let results : gmap string Hand :=
    {["Zac" := mkHand [1; 1; 1] "Triple 1" "triple" (Some 1) None]} in
  (size (used_keys results) ≤ MAX_UNIQUE)%nat.
Proof.
  intros results. apply (exhausted_test_exact results).
  intros n h Hn. apply lookup_singleton_Some in Hn as [_ <-].
  exists 1, 1, 1. split; [lia|reflexivity].
Defined.

Lemma size_list_to_set_le {A : Type} {EqA : EqDecision A} {CountA : Countable A}
    (l : list A) :
  (size (list_to_set l : gset A) ≤ length l)%nat.
Proof.
  induction l as [|x l IH]; [rewrite list_to_set_nil, size_empty; simpl; lia|].
  rewrite list_to_set_cons, size_union_alt, size_singleton. simpl.
  pose proof (subseteq_size (list_to_set l ∖ {[x]}) (list_to_set l : gset A)) as Hsub.
  assert (list_to_set l ∖ {[x]} ⊆ (list_to_set l : gset A)) as Hd
    by (intros y Hy; apply elem_of_difference in Hy as [Hy _]; exact Hy).
  specialize (Hsub Hd). lia.
Qed.

Lemma size_list_to_set_NoDup {A : Type} {EqA : EqDecision A} {CountA : Countable A}
    (l : list A) :
  size (list_to_set l : gset A) = length l ↔ NoDup l.
Proof.
  split; [|apply size_list_to_set].
  induction l as [|x l IH]; [constructor|].
  rewrite list_to_set_cons. simpl. intros Hsize.
  pose proof (size_list_to_set_le l) as Hle.
  destruct (decide (x ∈ l)) as [Hin|Hin].
  - assert ({[x]} ∪ list_to_set l = (list_to_set l : gset A)) as Hsame.
    { apply set_eq. intros y. rewrite elem_of_union, elem_of_singleton, elem_of_list_to_set.
      split; [intros [->|Hy]; assumption | auto]. }
    rewrite Hsame in Hsize. lia.
  - constructor; [exact Hin|]. apply IH.
    rewrite size_union, size_singleton in Hsize; [lia|].
    intros y Hy1 Hy2. apply elem_of_singleton in Hy1 as ->.
    apply elem_of_list_to_set in Hy2. contradiction.
Qed.

Lemma unique_keys_size (results : gmap string Hand) :
  unique_keys results ↔ size (used_keys results) = size results.
Proof.
  unfold unique_keys, used_keys. rewrite <- size_list_to_set_NoDup.
  rewrite !length_map, length_map_to_list. reflexivity.
Qed.

(** X6: no two results hold the same key exactly when the set [used] of the
    roll handler has as many keys as there are results. *)
Theorem unique_keys_iff_size (results : gmap string Hand) :
  unique_keys results ↔ size (used_keys results) = size results.
Proof. apply unique_keys_size. Qed.

Lemma unique_keys_iff_size_witness :
  size (used_keys full_round) = size full_round ∧
  ¬ unique_keys (<["Late" := mkHand [3; 3; 3] "Triple 3" "triple" (Some 3) None]>
                   full_round).
Proof.
  split.
  - apply (unique_keys_iff_size full_round).
    apply (bool_decide_unpack _). vm_compute. exact I.
  - intros Hu. apply (unique_keys_iff_size _) in Hu. vm_compute in Hu. discriminate Hu.
Defined.

(** ** More on the roll request *)

Lemma used_keys_insert (results : gmap string Hand) (n : string) (h : Hand) :
  results !! n = None →
  used_keys (<[n := h]> results) = {[outcomeKey (Some h)]} ∪ used_keys results.
Proof.
  intros Hnone. apply set_eq. intros k.
  rewrite elem_of_union, elem_of_singleton, !used_keys_spec. split.
  - intros (m & g & Hm & <-). rewrite lookup_insert in Hm. case_decide.
    + injection Hm as <-. left. reflexivity.
    + right. eauto.
  - intros [-> | (m & g & Hm & <-)].
    + exists n, h. rewrite lookup_insert_eq. auto.
    + exists m, g. rewrite lookup_insert_ne by congruence. auto.
Qed.

Lemma roll_ok (trim : string → string) (lc : string → string → Z)
    (body_name : option string) (now : string) (fuel : nat) (rnd : Random)
    (i : nat) (state : State) (body : RollBody) (state' : State) (i' : nat) :
  roll trim lc body_name now fuel rnd i state = Some (Returns (Ok body), state', i') →
  let name := trim (default "" body_name) in
  name ∈ friends state ∧ results state !! name = None ∧
  (size (used_keys (results state)) < MAX_UNIQUE)%nat ∧
  (outcomeKey (Some (rb_hand body)) ∉ used_keys (results state)) ∧
  state' = mkState (friends state) (<[name := rb_hand body]> (results state)) now ∧
  rb_updatedAt body = now ∧
  computeLeaders lc state' (results state') = Returns (rb_winner body).
Proof.
  intros Hroll. pose proof Hroll as Hs.
  apply roll_success in Hs as (Hnone & -> & key & tries & Hrun).
  apply allocate_accepted in Hrun as (-> & Hfree & _).
  revert Hroll. unfold roll.
  destruct (bool_decide (trim (default "" body_name) ∈ friends state)) eqn:Hin;
    cbn [negb]; [|discriminate].
  apply bool_decide_eq_true in Hin.
  destruct (bool_decide (is_Some _)); [discriminate|].
  destruct (MAX_UNIQUE <=? size _)%nat eqn:Hsize; [discriminate|].
  apply Nat.leb_gt in Hsize.
  destruct (allocate _ _ _ _ _) as [[[[h key|] i1] tries']|]; [|discriminate..].
  destruct (computeLeaders _ _ _) as [w|e] eqn:Hw; [|discriminate].
  intros [= <- Hst <-]. simpl in *.
  repeat split; assumption.
Qed.

(** X7: a roll that succeeds gives a hand whose key was not used, under a
    name that had no result; it adds this one key to the used keys and one
    entry to the results, and results without a duplicate key stay so. *)
Theorem roll_adds_fresh_key (trim : string → string) (lc : string → string → Z)
    (body_name : option string) (now : string) (fuel : nat) (rnd : Random)
    (i : nat) (state : State) (body : RollBody) (state' : State) (i' : nat) :
  roll trim lc body_name now fuel rnd i state = Some (Returns (Ok body), state', i') →
  (outcomeKey (Some (rb_hand body)) ∉ used_keys (results state)) ∧
  used_keys (results state') =
    {[outcomeKey (Some (rb_hand body))]} ∪ used_keys (results state) ∧
  size (results state') = S (size (results state)) ∧
  (unique_keys (results state) → unique_keys (results state')).
Proof.
  intros Hroll. pose proof (roll_keeps_unique_keys _ _ _ _ _ _ _ _ _ _ _ Hroll) as Hkeep.
  apply roll_ok in Hroll as (_ & Hnone & _ & Hfree & -> & _). simpl.
  split; [exact Hfree|]. split; [apply used_keys_insert, Hnone|].
  split; [apply map_size_insert_None, Hnone | exact Hkeep].
Qed.

Lemma roll_adds_fresh_key_witness :
  let state := mkState ["Zac"; "Will"]
                 {["Zac" := mkHand [2; 2; 5] "Point 5" "point" None (Some 5)]} "t0" in
  let hand := mkHand [1; 1; 1] "Triple 1" "triple" (Some 1) None in
  ("triple:1" ∉ used_keys (results state)) ∧
  unique_keys (<["Will" := hand]> (results state)).
Proof.
  intros state hand.
  destruct (roll_adds_fresh_key ascii_trim code_compare (Some "Will ") "t1" 2 rnd_ones 0
              state
              (mkRollBody hand "t1"
                 (Ready [scored_entry (<["Will" := hand]> (results state)) "Will"]
                    (Num 301)))
              (mkState ["Zac"; "Will"] (<["Will" := hand]> (results state)) "t1") 3)
    as (Hfree & _ & _ & Hkeep); [vm_compute; reflexivity|].
  split; [exact Hfree|]. apply Hkeep.
  apply (bool_decide_unpack _). vm_compute. exact I.
Defined.

(** X8: after a roll has succeeded, every further roll request for the same
    name is answered "Already rolled": it changes nothing and reads no
    draw. *)
Theorem roll_twice_refused (trim : string → string) (lc : string → string → Z)
    (body_name : option string) (now : string) (fuel : nat) (rnd : Random)
    (i : nat) (state : State) (body : RollBody) (state' : State) (i' : nat)
    (body_name2 : option string) (now2 : string) (fuel2 : nat) (rnd2 : Random)
    (i2 : nat) :
  roll trim lc body_name now fuel rnd i state = Some (Returns (Ok body), state', i') →
  trim (default "" body_name2) = trim (default "" body_name) →
  roll trim lc body_name2 now2 fuel2 rnd2 i2 state' =
    Some (Returns (Fail 409 "Already rolled"), state', i2).
Proof.
  intros Hroll Hname. apply roll_ok in Hroll as (Hin & _ & _ & _ & -> & _).
  unfold roll. rewrite Hname. simpl.
  rewrite bool_decide_eq_true_2 by exact Hin. cbn [negb].
  rewrite bool_decide_eq_true_2; [reflexivity|].
  rewrite lookup_insert_eq. eauto.
Qed.

Lemma roll_twice_refused_witness :
  let state := mkState ["Zac"; "Will"] ∅ "t0" in
  let hand := mkHand [1; 1; 1] "Triple 1" "triple" (Some 1) None in
  let state' := mkState ["Zac"; "Will"] {["Will" := hand]} "t1" in
  roll ascii_trim code_compare (Some "  Will") "t2" 0 rnd_124 7 state' =
    Some (Returns (Fail 409 "Already rolled"), state', 7%nat).
Proof.
  intros state hand state'.
  apply (roll_twice_refused ascii_trim code_compare (Some "Will ") "t1" 2 rnd_ones 0
           state (mkRollBody hand "t1" NotReady) state' 3).
  - vm_compute. reflexivity.
  - vm_compute. reflexivity.
Defined.

(** X9: when no two results hold the same key and 14 or more results are
    recorded, a roll for a plain name of the roster without a result is
    answered "All unique outcomes exhausted", without a draw and without a
    change: a round has at most 14 hands. *)
Theorem roll_exhausted_at_14 (trim : string → string) (lc : string → string → Z)
    (body_name : option string) (now : string) (fuel : nat) (rnd : Random)
    (i : nat) (state : State) :
  unique_keys (results state) →
  (MAX_UNIQUE ≤ size (results state))%nat →
  trim (default "" body_name) ∈ friends state →
  plain_name (trim (default "" body_name)) →
  results state !! trim (default "" body_name) = None →
  roll trim lc body_name now fuel rnd i state =
    Some (Returns (Fail 409 "All unique outcomes exhausted"), state, i).
Proof.
  intros Hu Hsize Hin _ Hnone. unfold roll.
  rewrite bool_decide_eq_true_2 by exact Hin. cbn [negb].
  rewrite bool_decide_eq_false_2 by (rewrite Hnone; intros [h Hh]; discriminate).
  apply unique_keys_size in Hu. rewrite Hu.
  destruct (MAX_UNIQUE <=? size (results state))%nat eqn:Hleb; [reflexivity|].
  apply Nat.leb_gt in Hleb. lia.
Qed.

Lemma roll_exhausted_at_14_witness :
  roll ascii_trim code_compare (Some "Late") "t1" 9 rnd_ones 0
    (mkState full_roster full_round "t0") =
    Some (Returns (Fail 409 "All unique outcomes exhausted"),
          mkState full_roster full_round "t0", 0%nat).
Proof.
  apply (roll_exhausted_at_14 ascii_trim code_compare (Some "Late") "t1" 9 rnd_ones 0
           (mkState full_roster full_round "t0")).
  - apply (bool_decide_unpack _). vm_compute. exact I.
  - apply Nat.leb_le. vm_compute. reflexivity.
  - apply (bool_decide_unpack _). vm_compute. exact I.
  - apply (bool_decide_unpack _). vm_compute. exact I.
  - vm_compute. reflexivity.
Defined.

(** ** More on the roster edit *)

Lemma filter_unseen_spec (seen : gset string) (l : list string) (n : string) :
  n ∈ filter_unseen seen l ↔ n ∈ l ∧ n ∉ seen.
Proof.
  revert seen. induction l as [|m l IH]; intros seen; simpl.
  - rewrite elem_of_nil. tauto.
  - destruct (bool_decide (m ∈ seen)) eqn:Hm.
    + apply bool_decide_eq_true in Hm. rewrite IH, elem_of_cons. split.
      * tauto.
      * intros [[->|Hn] Hseen]; [contradiction|tauto].
    + apply bool_decide_eq_false in Hm. rewrite !elem_of_cons, IH.
      rewrite elem_of_union, elem_of_singleton. split.
      * intros [->|[Hn Hseen]]; tauto.
      * intros [[->|Hn] Hseen]; [tauto|].
        destruct (decide (n = m)); tauto.
Qed.

Lemma filter_unseen_NoDup (seen : gset string) (l : list string) :
  NoDup (filter_unseen seen l).
Proof.
  revert seen. induction l as [|m l IH]; intros seen; simpl; [constructor|].
  destruct (bool_decide (m ∈ seen)); [apply IH|].
  constructor; [|apply IH].
  rewrite filter_unseen_spec, elem_of_union, elem_of_singleton. tauto.
Qed.

Lemma filter_unseen_sublist (seen : gset string) (l : list string) :
  filter_unseen seen l `sublist_of` l.
Proof.
  revert seen. induction l as [|m l IH]; intros seen; simpl; [constructor|].
  destruct (bool_decide (m ∈ seen)); [apply sublist_cons | apply sublist_skip]; apply IH.
Qed.

Lemma filter_unseen_id (seen : gset string) (l : list string) :
  NoDup l → (∀ n, n ∈ l → n ∉ seen) → filter_unseen seen l = l.
Proof.
  intros Hnd. revert seen. induction Hnd as [|m l Hm Hnd IH]; intros seen Hseen; simpl;
    [reflexivity|].
  rewrite bool_decide_eq_false_2 by (apply Hseen; left).
  f_equal. apply IH. intros n Hn.
  rewrite elem_of_union, elem_of_singleton. intros [->|Hs]; [contradiction|].
  apply (Hseen n); [right; exact Hn | exact Hs].
Qed.

Lemma clean_names_elem (trim : string → string) (l : list string) (n : string) :
  n ∈ clean_names trim l ↔ n ≠ "" ∧ ∃ s, s ∈ l ∧ n = trim s.
Proof.
  unfold clean_names.
  rewrite filter_unseen_spec, list_elem_of_filter, list_elem_of_fmap.
  split.
  - intros [[Hne (s & -> & Hs)] _]. eauto.
  - intros [Hne (s & Hs & ->)]. split; [eauto|]. apply not_elem_of_empty.
Qed.

Lemma clean_names_NoDup (trim : string → string) (l : list string) :
  NoDup (clean_names trim l).
Proof. apply filter_unseen_NoDup. Qed.

Lemma clean_names_id (trim : string → string) (l : list string) :
  NoDup l → Forall (λ s, trim s = s ∧ s ≠ "") l → clean_names trim l = l.
Proof.
  intros Hnd Hclean. unfold clean_names.
  assert (map trim l = l) as ->.
  { induction Hclean as [|s l [Hs _] _ IH]; simpl; [reflexivity|].
    apply NoDup_cons in Hnd as [_ Hnd]. rewrite Hs, (IH Hnd). reflexivity. }
  rewrite filter_all by (eapply Forall_impl; [exact Hclean|]; intros s [_ Hs]; exact Hs).
  apply filter_unseen_id; [exact Hnd|]. intros n _. apply not_elem_of_empty.
Qed.

(** X10: the names that the roster edit keeps of a list are the trimmed names
    that are not blank, each once, in the order in which they first come in
    the list. *)
Theorem clean_names_spec (trim : string → string) (l : list string) :
  NoDup (clean_names trim l) ∧
  clean_names trim l `sublist_of` map trim l ∧
  ∀ n, n ∈ clean_names trim l ↔ n ≠ "" ∧ ∃ s, s ∈ l ∧ n = trim s.
Proof.
  split; [apply clean_names_NoDup|]. split; [|apply clean_names_elem].
  unfold clean_names. etrans; [apply filter_unseen_sublist | apply sublist_filter].
Qed.

Lemma clean_names_spec_witness :
  clean_names ascii_trim [" Zac"; "Bo "; ""; "Zac"] = ["Zac"; "Bo"] ∧
  NoDup (clean_names ascii_trim [" Zac"; "Bo "; ""; "Zac"]) ∧
  "Bo" ∈ clean_names ascii_trim [" Zac"; "Bo "; ""; "Zac"].
Proof.
  destruct (clean_names_spec ascii_trim [" Zac"; "Bo "; ""; "Zac"]) as (Hnd & _ & Helem).
  split; [vm_compute; reflexivity|]. split; [exact Hnd|].
  apply Helem. split; [discriminate|]. exists "Bo ". split; [|reflexivity].
  apply (bool_decide_unpack _). vm_compute. exact I.
Defined.

(** X11: a list of names without repeats, in which no name is blank and
    trimming changes no name, is kept as it is by the roster edit. *)
Theorem clean_names_of_clean_list (trim : string → string) (l : list string) :
  NoDup l → Forall (λ s, trim s = s ∧ s ≠ "") l → clean_names trim l = l.
Proof. apply clean_names_id. Qed.

Lemma clean_names_of_clean_list_witness :
  clean_names ascii_trim DEFAULT_FRIENDS = DEFAULT_FRIENDS.
Proof.
  apply (clean_names_of_clean_list ascii_trim DEFAULT_FRIENDS).
  - apply (bool_decide_unpack _). vm_compute. exact I.
  - unfold DEFAULT_FRIENDS. repeat constructor; (vm_compute; reflexivity) || discriminate.
Defined.

Lemma set_names_ok (trim : string → string) (body_friends : option (list string))
    (now : string) (state : State) (body : NamesBody) (state' : State) :
  set_names trim body_friends now state = (Ok body, state') →
  ∃ names, body_friends = Some names ∧ clean_names trim names ≠ [] ∧
    body = mkNamesBody (clean_names trim names) now ∧
    state' = mkState (clean_names trim names)
               (keep_results (results state) (clean_names trim names)) now.
Proof.
  unfold set_names. destruct body_friends as [names|]; [|discriminate].
  destruct (clean_names trim names) as [|m l] eqn:Hclean; simpl; [discriminate|].
  intros [= <- <-]. exists names. rewrite Hclean. repeat split. discriminate.
Qed.

Lemma keep_results_subseteq (results : gmap string Hand) (names : list string) :
  keep_results results names ⊆ results.
Proof.
  apply map_subseteq_spec. intros n h. rewrite keep_results_lookup.
  destruct (decide _); [auto|discriminate].
Qed.

(** X12: a roster edit that is accepted leaves a roster that is not empty
    and has no blank and no repeated name; when the names of that roster
    are plain, the results it leaves are entries of the old results, each
    under a name of the new roster. *)
Theorem set_names_roster (trim : string → string) (body_friends : option (list string))
    (now : string) (state : State) (body : NamesBody) (state' : State) :
  set_names trim body_friends now state = (Ok body, state') →
  friends state' ≠ [] ∧ NoDup (friends state') ∧ ("" ∉ friends state') ∧
  nb_friends body = friends state' ∧
  (plain_names (friends state') →
   results state' ⊆ results state ∧
   (∀ n, is_Some (results state' !! n) → n ∈ friends state')).
Proof.
  intros Hset. apply set_names_ok in Hset as (names & _ & Hne & -> & ->). simpl.
  split; [exact Hne|]. split; [apply clean_names_NoDup|].
  split; [rewrite clean_names_elem; tauto|]. split; [reflexivity|]. intros _.
  split; [apply keep_results_subseteq|].
  intros n. rewrite keep_results_lookup.
  destruct (decide _); [auto|]. intros [h Hh]. discriminate.
Qed.

Lemma set_names_roster_witness :
  let state := mkState ["Zac"; "Will"]
                 {["Will" := mkHand [2; 2; 5] "Point 5" "point" None (Some 5)]} "t0" in
  let state' := (set_names ascii_trim (Some [" Zac"; "Bo "; ""; "Zac"]) "t1" state).2 in
  friends state' = ["Zac"; "Bo"] ∧ NoDup (friends state') ∧
  results state' ⊆ results state.
Proof.
  intros state state'.
  destruct (set_names_roster ascii_trim (Some [" Zac"; "Bo "; ""; "Zac"]) "t1" state
              (mkNamesBody ["Zac"; "Bo"] "t1") state')
    as (_ & Hnd & _ & _ & Hres); [vm_compute; reflexivity|].
  split; [vm_compute; reflexivity|]. split; [exact Hnd|].
  apply Hres. apply (bool_decide_unpack _). vm_compute. exact I.
Defined.

(** X13: sending back the roster that an accepted edit has returned, when
    trimming changes none of its names, is accepted again and changes
    nothing but the time stamp. *)
Theorem set_names_again (trim : string → string) (body_friends : option (list string))
    (now : string) (state : State) (body : NamesBody) (state' : State) (now2 : string) :
  set_names trim body_friends now state = (Ok body, state') →
  Forall (λ s, trim s = s) (nb_friends body) →
  set_names trim (Some (nb_friends body)) now2 state' =
    (Ok (mkNamesBody (friends state') now2),
     mkState (friends state') (results state') now2).
Proof.
  intros Hset Htrim. apply set_names_ok in Hset as (names & _ & Hne & -> & ->).
  simpl in *. unfold set_names.
  assert (clean_names trim (clean_names trim names) = clean_names trim names) as Hid.
  { apply clean_names_id; [apply clean_names_NoDup|].
    rewrite Forall_forall in Htrim |- *. intros s Hs. split; [auto|].
    apply clean_names_elem in Hs. tauto. }
  rewrite Hid. destruct (clean_names trim names) as [|m l] eqn:Hclean; [contradiction|].
  simpl. f_equal. f_equal. apply map_eq. intros n.
  rewrite !keep_results_lookup. destruct (decide _); reflexivity.
Qed.

Lemma set_names_again_witness :
  let state := mkState ["Zac"; "Will"]
                 {["Zac" := mkHand [2; 2; 5] "Point 5" "point" None (Some 5)]} "t0" in
  let state' := mkState ["Zac"; "Bo"] (results state) "t1" in
  set_names ascii_trim (Some ["Zac"; "Bo"]) "t2" state' =
    (Ok (mkNamesBody ["Zac"; "Bo"] "t2"), mkState ["Zac"; "Bo"] (results state') "t2").
Proof.
  intros state state'.
  apply (set_names_again ascii_trim (Some [" Zac"; "Bo "; ""; "Zac"]) "t1" state
           (mkNamesBody ["Zac"; "Bo"] "t1") state' "t2").
  - vm_compute. reflexivity.
  - repeat constructor.
Defined.

(** ** Resets *)

(** X14: [computeLeaders], and with it the read of the state and the answer
    of a roll, throws exactly when the roster is empty, whatever the
    results. *)
Theorem computeLeaders_throws_iff (lc : string → string → Z) (state : State)
    (results : gmap string Hand) :
  (∃ e, computeLeaders lc state results = Throws e) ↔ friends state = [].
Proof.
  split.
  - intros [e He]. eapply computeLeaders_throws. exact He.
  - intros Hempty. unfold computeLeaders. rewrite Hempty. simpl. eauto.
Qed.

Lemma computeLeaders_throws_iff_witness :
  ∃ e, computeLeaders code_compare (mkState [] ∅ "t0") full_round = Throws e.
Proof.
  apply (computeLeaders_throws_iff code_compare (mkState [] ∅ "t0") full_round).
  reflexivity.
Defined.

Lemma used_keys_empty : used_keys ∅ = ∅.
Proof. unfold used_keys. rewrite map_to_list_empty. reflexivity. Qed.

(** X15: the legacy reset is off unless a secret is configured: when
    [RESET_SECRET] is not set or is empty, every request, with whatever
    secret or none, is answered 403 and changes nothing. With a secret
    configured the request succeeds exactly when it carries that secret. *)
Theorem reset_needs_configured_secret (env : option string) (secret : option string)
    (now : string) (state : State) :
  ((env = None ∨ env = Some "") →
   reset (RESET_SECRET env) secret now state = (Fail 403 "Bad secret", state)) ∧
  (∀ s, env = Some s → s ≠ "" →
     (secret = Some s →
      reset (RESET_SECRET env) secret now state =
        (Ok now, mkState (friends state) ∅ now)) ∧
     (secret ≠ Some s →
      reset (RESET_SECRET env) secret now state = (Fail 403 "Bad secret", state))).
Proof.
  unfold reset, RESET_SECRET. split.
  - intros [-> | ->]; reflexivity.
  - intros s -> Hs. simpl. rewrite bool_decide_eq_false_2 by exact Hs. simpl. split.
    + intros ->. rewrite bool_decide_eq_true_2 by reflexivity. reflexivity.
    + intros Hne. rewrite bool_decide_eq_false_2 by exact Hne. reflexivity.
Qed.

Lemma reset_needs_configured_secret_witness :
  reset (RESET_SECRET None) (Some "") "t1" (initial_state "t0") =
    (Fail 403 "Bad secret", initial_state "t0") ∧
  reset (RESET_SECRET (Some "s3cret")) (Some "s3cret") "t1" (initial_state "t0") =
    (Ok "t1", mkState DEFAULT_FRIENDS ∅ "t1").
Proof.
  destruct (reset_needs_configured_secret None (Some "") "t1" (initial_state "t0"))
    as [Hoff _].
  destruct (reset_needs_configured_secret (Some "s3cret") (Some "s3cret") "t1"
              (initial_state "t0")) as [_ Hon].
  split; [apply Hoff; left; reflexivity|].
  apply (Hon "s3cret"); [reflexivity | discriminate | reflexivity].
Defined.

Lemma roll_after_reset_cases (trim : string → string) (lc : string → string → Z)
    (body_name : option string) (now : string) (fuel : nat) (rnd : Random)
    (i : nat) (roster : list string) (stamp : string)
    (c : completion (response RollBody)) (state' : State) (i' : nat) :
  trim (default "" body_name) ∈ roster →
  roll trim lc body_name now fuel rnd i (mkState roster ∅ stamp) = Some (c, state', i') →
  (∃ body, c = Returns (Ok body)) ∨
  c = Returns (Fail 500 "Exceeded attempts for unique outcome").
Proof.
  intros Hin. unfold roll. simpl.
  rewrite bool_decide_eq_true_2 by exact Hin. cbn [negb].
  rewrite bool_decide_eq_false_2
    by (rewrite lookup_empty; intros [h Hh]; discriminate).
  rewrite used_keys_empty, size_empty. simpl.
  destruct (allocate _ _ _ _ _) as [[[[h key|] i1] tries]|]; [| |discriminate].
  - destruct (computeLeaders _ _ _) as [w|e] eqn:Hw.
    + intros [= <- <- <-]. left. eauto.
    + apply computeLeaders_throws in Hw. simpl in Hw. subst roster.
      apply elem_of_nil in Hin. destruct Hin.
  - intros [= <- <- <-]. right. reflexivity.
Qed.

(** X16: the admin reset keeps the roster and empties the results. After it
    no key is used, the leaderboard of a roster with a plain name is not
    ready, and a roll for any plain name of the roster that returns is
    answered with a hand, or with the error of the cap: never with "Already
    rolled" or "All unique outcomes exhausted". *)
Theorem admin_reset_fresh_round (trim : string → string) (lc : string → string → Z)
    (now : string) (state : State) :
  let state' := (admin_reset now state).2 in
  friends state' = friends state ∧ results state' = ∅ ∧
  used_keys (results state') = ∅ ∧
  ((∃ n, n ∈ friends state ∧ plain_name n) →
   computeLeaders lc state' (results state') = Returns NotReady) ∧
  (∀ body_name now2 fuel rnd i c state2 i2,
     trim (default "" body_name) ∈ friends state →
     plain_name (trim (default "" body_name)) →
     roll trim lc body_name now2 fuel rnd i state' = Some (c, state2, i2) →
     (∃ body, c = Returns (Ok body)) ∨
     c = Returns (Fail 500 "Exceeded attempts for unique outcome")).
Proof.
  simpl. split; [reflexivity|]. split; [reflexivity|]. split; [apply used_keys_empty|].
  split.
  - intros (n & Hn & _). apply computeLeaders_NotReady. simpl.
    exists n. split; [exact Hn | apply lookup_empty].
  - intros body_name now2 fuel rnd i c state2 i2 Hin _.
    apply roll_after_reset_cases. exact Hin.
Qed.

Lemma admin_reset_fresh_round_witness :
  let state := mkState ["Zac"; "Will"]
                 {["Zac" := mkHand [1; 1; 1] "Triple 1" "triple" (Some 1) None]} "t0" in
  computeLeaders code_compare (admin_reset "t1" state).2
    (results (admin_reset "t1" state).2) = Returns NotReady.
Proof.
  intros state.
  destruct (admin_reset_fresh_round ascii_trim code_compare "t1" state)
    as (_ & _ & _ & Hnot & _).
  apply Hnot. exists "Zac". split; apply (bool_decide_unpack _); vm_compute; exact I.
Defined.

(** ** The admin tokens *)

Lemma substring_all (s : string) : String.substring 0 (String.length s) s = s.
Proof. induction s as [|c s IH]; simpl; [reflexivity|]. rewrite IH. reflexivity. Qed.

Lemma getToken_bearer (trim : string → string) (t : string) (body_token : option string) :
  getToken trim (Some ("Bearer " +:+ t)) body_token = trim t.
Proof.
  unfold getToken. cbn [default from_option id].
  change ("Bearer " +:+ t) with
    (String "B" (String "e" (String "a" (String "r" (String "e" (String "r"
       (String " " t))))))).
  assert (String.prefix "" t = true) as Hnil by (destruct t; reflexivity).
  simpl. rewrite Hnil, Nat.sub_0_r, substring_all. reflexivity.
Qed.

Lemma ADMIN_PASSWORD_not_empty (env : option string) : ADMIN_PASSWORD env ≠ "".
Proof.
  unfold ADMIN_PASSWORD. destruct env as [p|]; [|discriminate].
  case_bool_decide; [discriminate|assumption].
Qed.

(** X17: a login succeeds exactly when the request carries the configured
    password, which is "buck" when [ADMIN_PASSWORD] is not set or empty: it
    then answers with the new token and adds it to the tokens, keeping all
    the others. Every other request is answered 401 and leaves the tokens
    as they were. *)
Theorem login_iff_password (env : option string) (password : option string)
    (t : string) (adminTokens : gset string) :
  (password = Some (ADMIN_PASSWORD env) →
   login (ADMIN_PASSWORD env) password t adminTokens = (Ok t, {[t]} ∪ adminTokens)) ∧
  (password ≠ Some (ADMIN_PASSWORD env) →
   login (ADMIN_PASSWORD env) password t adminTokens =
     (Fail 401 "Wrong password", adminTokens)) ∧
  ((env = None ∨ env = Some "") → ADMIN_PASSWORD env = "buck").
Proof.
  pose proof (ADMIN_PASSWORD_not_empty env) as Hne. unfold login. split; [|split].
  - intros ->. rewrite bool_decide_eq_false_2 by exact Hne.
    rewrite bool_decide_eq_true_2 by reflexivity. reflexivity.
  - intros Hwrong. destruct password as [p|]; [|reflexivity].
    destruct (bool_decide (p = "")); [reflexivity|].
    rewrite bool_decide_eq_false_2 by congruence. reflexivity.
  - intros [-> | ->]; reflexivity.
Qed.

Lemma login_iff_password_witness :
  login (ADMIN_PASSWORD None) (Some "buck") "a1b2" ∅ = (Ok "a1b2", {["a1b2"]} ∪ ∅) ∧
  login (ADMIN_PASSWORD (Some "hunter2")) (Some "buck") "a1b2" ∅ =
    (Fail 401 "Wrong password", ∅).
Proof.
  destruct (login_iff_password None (Some "buck") "a1b2" ∅) as (Hok & _ & _).
  destruct (login_iff_password (Some "hunter2") (Some "buck") "a1b2" ∅) as (_ & Hno & _).
  split; [apply Hok; reflexivity | apply Hno; discriminate].
Defined.

Lemma requireAdmin_pass {A : Type} (trim : string → string) (adminTokens : gset string)
    (authorization body_token : option string) (next : State → response A * State)
    (state : State) :
  getToken trim authorization body_token ≠ "" →
  getToken trim authorization body_token ∈ adminTokens →
  requireAdmin trim adminTokens authorization body_token next state = next state.
Proof.
  intros Hne Hin. unfold requireAdmin.
  rewrite bool_decide_eq_false_2 by exact Hne.
  rewrite bool_decide_eq_true_2 by exact Hin. reflexivity.
Qed.

Lemma requireAdmin_refuse {A : Type} (trim : string → string) (adminTokens : gset string)
    (authorization body_token : option string) (next : State → response A * State)
    (state : State) :
  getToken trim authorization body_token = "" ∨
  getToken trim authorization body_token ∉ adminTokens →
  requireAdmin trim adminTokens authorization body_token next state =
    (Fail 401 "Not authorized", state).
Proof.
  intros Hbad. unfold requireAdmin.
  destruct (bool_decide (_ = "")) eqn:He; [reflexivity|].
  apply bool_decide_eq_false in He. destruct Hbad as [Hbad|Hbad]; [contradiction|].
  rewrite bool_decide_eq_false_2 by exact Hbad. reflexivity.
Qed.

(** X18: the token of a successful login opens the admin routes: sent as
    [Authorization: Bearer <token>], or as the token of the body when the
    request has no such header, it lets the handler run, at once and after
    any number of further logins. The token is taken to be what the server
    issues, a string that is not empty and that trimming leaves alone. *)
Theorem login_then_authorized {A : Type} (trim : string → string)
    (admin_password : string) (password : option string) (t : string)
    (adminTokens adminTokens' later : gset string) (token : string)
    (body_token : option string) (next : State → response A * State) (state : State) :
  login admin_password password t adminTokens = (Ok token, adminTokens') →
  token ≠ "" → trim token = token → adminTokens' ⊆ later →
  token = t ∧
  requireAdmin trim later (Some ("Bearer " +:+ token)) body_token next state = next state ∧
  requireAdmin trim later None (Some token) next state = next state.
Proof.
  intros Hlogin Hne Htrim Hlater.
  assert (token = t ∧ token ∈ adminTokens') as [Ht Hin].
  { revert Hlogin. unfold login, issueAdminToken. destruct password as [p|]; [|discriminate].
    destruct (_ || _); [discriminate|]. intros [= <- <-].
    split; [reflexivity|]. apply elem_of_union_l, elem_of_singleton. reflexivity. }
  split; [exact Ht|]. split.
  - apply requireAdmin_pass; rewrite getToken_bearer, Htrim; [exact Hne|].
    apply Hlater, Hin.
  - apply requireAdmin_pass; unfold getToken; simpl; [exact Hne|]. apply Hlater, Hin.
Qed.

Lemma login_then_authorized_witness :
  requireAdmin ascii_trim ({["9f"]} ∪ ({["a1b2"]} ∪ ∅)) (Some "Bearer a1b2") None
    (admin_reset "t1") (initial_state "t0") = admin_reset "t1" (initial_state "t0").
Proof.
  destruct (login_then_authorized (A:=string) ascii_trim "buck" (Some "buck") "a1b2" ∅
              ({["a1b2"]} ∪ ∅) ({["9f"]} ∪ ({["a1b2"]} ∪ ∅)) "a1b2" None
              (admin_reset "t1") (initial_state "t0")) as (_ & Hbearer & _).
  - reflexivity.
  - discriminate.
  - reflexivity.
  - apply union_subseteq_r.
  - exact Hbearer.
Defined.

(** X19: a request to an admin route is answered 401 and changes nothing
    when its token is in no way one of the tokens issued: when it has
    neither a Bearer header nor a token in the body, when the token it
    carries was not issued, and when its Bearer header holds only what
    trimming removes, even if the body carries a token that was issued. *)
Theorem requireAdmin_refuses {A : Type} (trim : string → string)
    (adminTokens : gset string) (next : State → response A * State) (state : State) :
  (∀ authorization,
     String.prefix "Bearer " (default "" authorization) = false →
     requireAdmin trim adminTokens authorization None next state =
       (Fail 401 "Not authorized", state)) ∧
  (∀ authorization body_token,
     getToken trim authorization body_token ∉ adminTokens →
     requireAdmin trim adminTokens authorization body_token next state =
       (Fail 401 "Not authorized", state)) ∧
  (∀ blank body_token,
     trim blank = "" →
     requireAdmin trim adminTokens (Some ("Bearer " +:+ blank)) body_token next state =
       (Fail 401 "Not authorized", state)).
Proof.
  split; [|split].
  - intros authorization Hprefix. apply requireAdmin_refuse. left.
    unfold getToken. rewrite Hprefix. reflexivity.
  - intros authorization body_token Hnot. apply requireAdmin_refuse. right. exact Hnot.
  - intros blank body_token Hblank. apply requireAdmin_refuse. left.
    rewrite getToken_bearer. exact Hblank.
Qed.

Lemma requireAdmin_refuses_witness :
  requireAdmin ascii_trim {["a1b2"]} (Some "Bearer   ") (Some "a1b2")
    (admin_reset "t1") (initial_state "t0") =
    (Fail 401 "Not authorized", initial_state "t0").
Proof.
  destruct (requireAdmin_refuses (A:=string) ascii_trim {["a1b2"]} (admin_reset "t1")
              (initial_state "t0")) as (_ & _ & Hblank).
  apply (Hblank "  " (Some "a1b2")). reflexivity.
Defined.

(** ** Persistence *)

(** X20: what [saveToDisk] writes, [loadFromDisk] reads back: loading the
    saved state over any state gives the saved state again, provided its
    time stamp is not empty (an empty [updatedAt] is not loaded). *)
Theorem load_saved_state (state state0 : State) :
  updatedAt state ≠ "" →
  loadFromDisk (Some (saveToDisk state)) state0 = state.
Proof.
  intros Hstamp. unfold loadFromDisk, saveToDisk. simpl.
  rewrite bool_decide_eq_false_2 by exact Hstamp. destruct state. reflexivity.
Qed.

Lemma load_saved_state_witness :
  let state := mkState ["Zac"; "Will"]
                 {["Zac" := mkHand [1; 1; 1] "Triple 1" "triple" (Some 1) None]}
                 "2024-01-01T00:00:00.000Z" in
  loadFromDisk (Some (saveToDisk state)) (initial_state "t0") = state.
Proof.
  intros state. apply (load_saved_state state (initial_state "t0")). discriminate.
Defined.

(** ** The rounds the server can reach *)

Lemma unique_keys_empty : unique_keys ∅.
Proof. unfold unique_keys. rewrite map_to_list_empty. constructor. Qed.

Lemma round_ok_emptied (state : State) (now : string) :
  round_ok state → round_ok (mkState (friends state) ∅ now).
Proof.
  intros (Hne & Hnd & Hblank & _). unfold round_ok. simpl.
  split; [exact Hne|]. split; [exact Hnd|]. split; [exact Hblank|].
  split; [|split; [|apply unique_keys_empty]].
  - intros n [h Hh]. rewrite lookup_empty in Hh. discriminate.
  - intros n h Hh. rewrite lookup_empty in Hh. discriminate.
Qed.

Lemma round_ok_initial (now : string) : round_ok (initial_state now).
Proof.
  apply (round_ok_emptied (mkState DEFAULT_FRIENDS ∅ now)).
  unfold round_ok. simpl.
  split; [discriminate|].
  split; [apply (bool_decide_unpack _); vm_compute; exact I|].
  split; [apply (bool_decide_unpack _); vm_compute; exact I|].
  split; [|split; [|apply unique_keys_empty]].
  - intros n [h Hh]. rewrite lookup_empty in Hh. discriminate.
  - intros n h Hh. rewrite lookup_empty in Hh. discriminate.
Qed.

Lemma roll_state_cases (trim : string → string) (lc : string → string → Z)
    (body_name : option string) (now : string) (fuel : nat) (rnd : Random)
    (i : nat) (state : State)
    (c : completion (response RollBody)) (state' : State) (i' : nat) :
  roll trim lc body_name now fuel rnd i state = Some (c, state', i') →
  state' = state ∨ ∃ body, c = Returns (Ok body).
Proof.
  unfold roll.
  destruct (bool_decide (trim (default "" body_name) ∈ friends state)) eqn:Hin; cbn [negb].
  2: { intros [= <- <- <-]. left. reflexivity. }
  apply bool_decide_eq_true in Hin.
  destruct (bool_decide (is_Some _)); [intros [= <- <- <-]; left; reflexivity|].
  destruct (MAX_UNIQUE <=? size _)%nat; [intros [= <- <- <-]; left; reflexivity|].
  destruct (allocate _ _ _ _ _) as [[[[h key|] i1] tries]|]; [| |discriminate].
  - destruct (computeLeaders _ _ _) as [w|e] eqn:Hw.
    + intros [= <- <- <-]. right. eauto.
    + apply computeLeaders_throws in Hw. simpl in Hw.
      rewrite Hw in Hin. apply elem_of_nil in Hin. destruct Hin.
  - intros [= <- <- <-]. left. reflexivity.
Qed.

Lemma round_ok_roll (trim : string → string) (lc : string → string → Z)
    (body_name : option string) (now : string) (fuel : nat) (rnd : Random)
    (i : nat) (state : State)
    (c : completion (response RollBody)) (state' : State) (i' : nat) :
  in_range rnd →
  roll trim lc body_name now fuel rnd i state = Some (c, state', i') →
  round_ok state → round_ok state'.
Proof.
  intros Hrnd Hroll Hok.
  destruct (roll_state_cases _ _ _ _ _ _ _ _ _ _ _ Hroll) as [-> | [body ->]];
    [exact Hok|].
  destruct Hok as (Hne & Hnd & Hblank & Hdom & Hrolled & Hu).
  pose proof (roll_keeps_unique_keys _ _ _ _ _ _ _ _ _ _ _ Hroll Hu) as Hu'.
  pose proof (roll_keeps_rolled_hands _ _ _ _ _ _ _ _ _ _ _ Hrnd Hroll Hrolled) as Hrolled'.
  apply roll_ok in Hroll as (Hin & _ & _ & _ & -> & _).
  unfold round_ok. simpl in *.
  split; [exact Hne|]. split; [exact Hnd|]. split; [exact Hblank|].
  split; [|split; assumption].
  intros n. rewrite lookup_insert. case_decide; [subst; auto | apply Hdom].
Qed.

Lemma round_ok_set_names (trim : string → string) (body_friends : option (list string))
    (now : string) (state : State) :
  round_ok state → round_ok (set_names trim body_friends now state).2.
Proof.
  intros Hok.
  destruct (set_names trim body_friends now state) as [[status error|body] state'] eqn:Hset.
  - revert Hset. unfold set_names. destruct body_friends as [names|].
    + destruct (length _ =? 0)%nat; [|discriminate]. intros [= _ _ <-]. exact Hok.
    + intros [= _ _ <-]. exact Hok.
  - simpl. destruct Hok as (_ & _ & _ & _ & Hrolled & Hu).
    apply set_names_ok in Hset as (names & _ & Hne & _ & ->).
    unfold round_ok. simpl.
    split; [exact Hne|]. split; [apply clean_names_NoDup|].
    split; [rewrite clean_names_elem; tauto|].
    split; [|split; [|apply unique_keys_keep, Hu]].
    + intros n. rewrite keep_results_lookup.
      destruct (decide _); [auto|]. intros [h Hh]. discriminate.
    + intros n h. rewrite keep_results_lookup.
      destruct (decide _); [apply Hrolled|discriminate].
Qed.

Lemma round_ok_requireAdmin {A : Type} (trim : string → string)
    (adminTokens : gset string) (authorization body_token : option string)
    (next : State → response A * State) (state : State) :
  round_ok state → round_ok (next state).2 →
  round_ok (requireAdmin trim adminTokens authorization body_token next state).2.
Proof.
  intros Hok Hnext. unfold requireAdmin. destruct (_ || _); assumption.
Qed.

Lemma round_ok_step (trim : string → string) (lc : string → string → Z)
    (reset_secret admin_password : string) (app app' : App) :
  step trim lc reset_secret admin_password app app' →
  round_ok (app_state app) → round_ok (app_state app').
Proof.
  intros Hstep Hok. destruct Hstep; simpl.
  - eapply round_ok_roll; eassumption.
  - unfold reset. destruct (_ || _); [exact Hok|]. apply round_ok_emptied, Hok.
  - exact Hok.
  - apply round_ok_requireAdmin; [exact Hok|]. apply round_ok_set_names, Hok.
  - apply round_ok_requireAdmin; [exact Hok|]. apply round_ok_emptied, Hok.
Qed.

Lemma round_ok_reachable (trim : string → string) (lc : string → string → Z)
    (reset_secret admin_password : string) (app app' : App) :
  rtc (step trim lc reset_secret admin_password) app app' →
  round_ok (app_state app) → round_ok (app_state app').
Proof.
  induction 1 as [|app app1 app2 Hstep _ IH]; [auto|].
  intros Hok. apply IH. eapply round_ok_step; eassumption.
Qed.

Lemma plain_names_default : plain_names DEFAULT_FRIENDS.
Proof. apply (bool_decide_unpack _). vm_compute. exact I. Qed.

Lemma round_ok_plain_reachable (trim : string → string) (lc : string → string → Z)
    (reset_secret admin_password : string) (app app' : App) :
  rtc (plain_step trim lc reset_secret admin_password) app app' →
  round_ok (app_state app) ∧ plain_names (friends (app_state app)) →
  round_ok (app_state app') ∧ plain_names (friends (app_state app')).
Proof.
  induction 1 as [|app app1 app2 [Hstep Hplain] _ IH]; [auto|].
  intros [Hok _]. apply IH. split; [|exact Hplain].
  eapply round_ok_step; eassumption.
Qed.

(** X21: every state that the server reaches from its initial state, by
    requests of any kind in any order that leave a roster of plain names,
    is a round in good order: the roster is not empty and has no blank and
    no repeated name, every result is under a name of the roster and is a
    hand that [rollCeeLo] can return, and no two results hold the same key.
    The same holds from any state in good order with a roster of plain
    names, such as one loaded from a file that the server saved. *)
Theorem reachable_round_ok (trim : string → string) (lc : string → string → Z)
    (reset_secret admin_password : string) (now : string) (tokens : gset string)
    (start : State) (app : App) :
  (start = initial_state now ∨ (round_ok start ∧ plain_names (friends start))) →
  rtc (plain_step trim lc reset_secret admin_password) (mkApp start tokens) app →
  round_ok (app_state app) ∧ plain_names (friends (app_state app)).
Proof.
  intros Hstart Hreach. apply (round_ok_plain_reachable _ _ _ _ _ _ Hreach). simpl.
  destruct Hstart as [-> | Hok]; [|exact Hok].
  split; [apply round_ok_initial | apply plain_names_default].
Qed.

Lemma reachable_round_ok_witness :
  round_ok (mkState DEFAULT_FRIENDS
              {["Zac" := mkHand [1; 1; 1] "Triple 1" "triple" (Some 1) None]} "t1").
Proof.
  apply (reachable_round_ok ascii_trim code_compare "" "buck" "t0" ∅ (initial_state "t0")
           (mkApp (mkState DEFAULT_FRIENDS
                     {["Zac" := mkHand [1; 1; 1] "Triple 1" "triple" (Some 1) None]} "t1")
                  ∅)).
  - left. reflexivity.
  - apply rtc_once. split; [|apply plain_names_default].
    apply (step_roll ascii_trim code_compare "" "buck" (mkApp (initial_state "t0") ∅)
             (Some " Zac") "t1" 2 rnd_ones 0
             (Returns (Ok (mkRollBody (mkHand [1; 1; 1] "Triple 1" "triple" (Some 1) None)
                             "t1" NotReady))) _ 3).
    + intros i. unfold rnd_ones. lia.
    + vm_compute. reflexivity.
Defined.

(** X22: the admin tokens are never taken back: whatever request is served,
    every token that was issued before is still among the tokens after. *)
Theorem tokens_never_revoked (trim : string → string) (lc : string → string → Z)
    (reset_secret admin_password : string) (app app' : App) :
  rtc (step trim lc reset_secret admin_password) app app' →
  adminTokens app ⊆ adminTokens app'.
Proof.
  induction 1 as [|app app1 app2 Hstep _ IH]; [reflexivity|].
  etrans; [|exact IH]. destruct Hstep; simpl; try reflexivity.
  unfold login, issueAdminToken. destruct password as [p|]; [|reflexivity].
  destruct (_ || _); simpl; [reflexivity|]. apply union_subseteq_r.
Qed.

Lemma tokens_never_revoked_witness :
  ({["a1b2"]} : gset string) ⊆ {["9f"]} ∪ {["a1b2"]}.
Proof.
  assert (rtc (step ascii_trim code_compare "" "buck")
            (mkApp (initial_state "t0") {["a1b2"]})
            (mkApp (initial_state "t0") ({["9f"]} ∪ {["a1b2"]}))) as Hreach.
  { apply rtc_once.
    exact (step_login ascii_trim code_compare "" "buck"
             (mkApp (initial_state "t0") {["a1b2"]}) (Some "buck") "9f"). }
  exact (tokens_never_revoked ascii_trim code_compare "" "buck" _ _ Hreach).
Defined.

(** ** The leader of a round in good order *)

Lemma computeLeaders_Ready_inv (lc : string → string → Z) (state : State)
    (results : gmap string Hand) (leaders : list Scored) (topScore : num) :
  computeLeaders lc state results = Returns (Ready leaders topScore) →
  (∀ n, n ∈ friends state → is_Some (results !! n)) ∧
  (∃ n, n ∈ friends state ∧ topScore = rankScore (results !! n)) ∧
  leaders ≡ₚ filter (λ e, num_strict_eq (score e) topScore)
               (map (scored_entry results) (friends state)).
Proof.
  unfold computeLeaders.
  set (entries := map _ (friends state)).
  assert (length entries = length (friends state)) as Hentries by apply length_map.
  destruct (negb _) eqn:Hlen; [discriminate|].
  apply negb_false_iff, Nat.eqb_eq in Hlen.
  rewrite <- Hentries, length_filter_all in Hlen.
  rewrite (filter_all _ _ Hlen).
  pose proof (proj1 (rolled_all results (friends state)) Hlen) as Hall.
  replace (map (λ e, mkScored e (rankScore (hand e))) entries)
    with (map (scored_entry results) (friends state))
    by (unfold entries; rewrite map_map; reflexivity).
  pose proof (js_sort_perm (by_score_then_name lc)
                (map (scored_entry results) (friends state))) as Hperm.
  destruct (js_sort _ _) as [|top rest] eqn:Hsort; [discriminate|].
  intros [= <- <-]. split; [exact Hall|]. split.
  - assert (top ∈ map (scored_entry results) (friends state)) as Htop
      by (rewrite <- Hperm; left).
    apply list_elem_of_fmap in Htop as (n & -> & Hn). exists n. auto.
  - rewrite Hperm. reflexivity.
Qed.

Lemma filter_fmap_none {A B : Type} (P : B → Prop) `{!∀ y, Decision (P y)}
    (f : A → B) (l : list A) :
  (∀ y, y ∈ l → ¬ P (f y)) → filter P (f <$> l) = [].
Proof.
  induction l as [|a l IH]; intros Hnone; [reflexivity|]. csimpl.
  rewrite filter_cons_False by (apply Hnone; left).
  apply IH. intros y Hy. apply Hnone. right. exact Hy.
Qed.

Lemma filter_fmap_one {A B : Type} (P : B → Prop) `{!∀ y, Decision (P y)}
    (f : A → B) (l : list A) (x : A) :
  NoDup l → x ∈ l → P (f x) → (∀ y, y ∈ l → P (f y) → y = x) →
  filter P (f <$> l) = [f x].
Proof.
  intros Hnd. induction Hnd as [|a l Ha Hnd IH]; intros Hx HP Hone.
  - apply elem_of_nil in Hx. destruct Hx.
  - csimpl. apply elem_of_cons in Hx as [->|Hx].
    + rewrite filter_cons_True by exact HP. f_equal.
      apply filter_fmap_none. intros y Hy HPy.
      assert (y = a) as -> by (apply Hone; [right; exact Hy | exact HPy]).
      contradiction.
    + rewrite filter_cons_False.
      * apply IH; [exact Hx | exact HP|]. intros y Hy. apply Hone. right. exact Hy.
      * intros HPa. assert (a = x) as -> by (apply Hone; [left | exact HPa]).
        contradiction.
Qed.

(** X23: in a round in good order with a roster of plain names, when the
    leaderboard is ready it has exactly one leader, a name of the roster,
    and the top score is the score of that leader's hand: with unique keys
    no two names tie. *)
Theorem round_ok_one_leader (lc : string → string → Z) (state : State)
    (leaders : list Scored) (topScore : num) :
  round_ok state → plain_names (friends state) →
  computeLeaders lc state (results state) = Returns (Ready leaders topScore) →
  ∃ n, n ∈ friends state ∧
       leaders = [scored_entry (results state) n] ∧
       topScore = rankScore (results state !! n).
Proof.
  intros (_ & Hnd & _ & _ & Hrolled & Hu) _ Hrun.
  apply computeLeaders_Ready_inv in Hrun as (Hall & (n0 & Hn0 & ->) & Hperm).
  exists n0. split; [exact Hn0|]. split; [|reflexivity].
  destruct (Hall n0 Hn0) as [h0 Hh0].
  destruct (rolled_hand_score h0 (Hrolled n0 h0 Hh0)) as [s0 Hs0].
  rewrite (filter_fmap_one _ (scored_entry (results state)) (friends state) n0) in Hperm.
  - apply Permutation_singleton_r in Hperm. exact Hperm.
  - exact Hnd.
  - exact Hn0.
  - simpl. rewrite Hh0, Hs0. simpl. rewrite Z.eqb_refl. exact I.
  - intros y Hy. simpl. destruct (Hall y Hy) as [hy Hhy].
    destruct (rolled_hand_score hy (Hrolled y hy Hhy)) as [sy Hsy].
    rewrite Hhy, Hh0, Hsy, Hs0. simpl. intros Heq.
    apply Is_true_true, Z.eqb_eq in Heq. subst sy.
    rewrite unique_keys_lookup in Hu. apply (Hu y n0 hy h0 Hhy Hh0).
    apply (outcomeKey_rolled hy h0); [eauto | eauto | congruence].
Qed.

Lemma round_ok_one_leader_witness :
  let state := mkState ["Zac"; "Will"]
                 (<["Zac" := mkHand [1; 1; 1] "Triple 1" "triple" (Some 1) None]>
                    {["Will" := mkHand [2; 2; 5] "Point 5" "point" None (Some 5)]}) "t0" in
  ∃ n, n ∈ friends state ∧
       [scored_entry (results state) "Zac"] = [scored_entry (results state) n] ∧
       Num 301 = rankScore (results state !! n).
Proof.
  intros state.
  apply (round_ok_one_leader code_compare state
           [scored_entry (results state) "Zac"] (Num 301));
    [|apply (bool_decide_unpack _); vm_compute; exact I|vm_compute; reflexivity].
  unfold round_ok.
  split; [discriminate|].
  split; [apply (bool_decide_unpack _); vm_compute; exact I|].
  split; [apply (bool_decide_unpack _); vm_compute; exact I|].
  assert (∀ n h, results state !! n = Some h →
            (n = "Zac" ∧ h = mkHand [1; 1; 1] "Triple 1" "triple" (Some 1) None) ∨
            (n = "Will" ∧ h = mkHand [2; 2; 5] "Point 5" "point" None (Some 5))) as Hres.
  { intros n h. unfold state. simpl. rewrite lookup_insert. case_decide.
    - intros [= <-]. left. auto.
    - rewrite lookup_singleton. case_decide; [|discriminate]. intros [= <-]. right. auto. }
  split; [|split].
  - intros n [h Hh]. destruct (Hres n h Hh) as [[-> _]|[-> _]];
      apply (bool_decide_unpack _); vm_compute; exact I.
  - intros n h Hh. destruct (Hres n h Hh) as [[_ ->]|[_ ->]].
    + exists 1, 1, 1. split; [lia|reflexivity].
    + exists 2, 5, 2. split; [lia|reflexivity].
  - apply (bool_decide_unpack _). vm_compute. exact I.
Defined.

(** ** Reading the state *)

(** X24: what a successful roll answers is what the next read of the state
    shows: the read returns the roster, the results with the new hand under
    the name, the time stamp and the leaderboard of the roll's response. *)
Theorem get_state_after_roll (trim : string → string) (lc : string → string → Z)
    (body_name : option string) (now : string) (fuel : nat) (rnd : Random)
    (i : nat) (state : State) (body : RollBody) (state' : State) (i' : nat) :
  roll trim lc body_name now fuel rnd i state = Some (Returns (Ok body), state', i') →
  get_state lc state' =
    Returns (mkStateBody (friends state)
               (<[trim (default "" body_name) := rb_hand body]> (results state))
               (rb_updatedAt body) (rb_winner body)).
Proof.
  intros Hroll. apply roll_ok in Hroll as (_ & _ & _ & _ & -> & -> & Hw).
  unfold get_state. rewrite Hw. reflexivity.
Qed.

Lemma get_state_after_roll_witness :
  let hand := mkHand [1; 1; 1] "Triple 1" "triple" (Some 1) None in
  get_state code_compare (mkState ["Zac"] {["Zac" := hand]} "t1") =
    Returns (mkStateBody ["Zac"] (<["Zac" := hand]> ∅) "t1"
               (Ready [scored_entry {["Zac" := hand]} "Zac"] (Num 301))).
Proof.
  intros hand.
  exact (get_state_after_roll ascii_trim code_compare (Some "Zac") "t1" 2 rnd_ones 0
           (mkState ["Zac"] ∅ "t0")
           (mkRollBody hand "t1" (Ready [scored_entry {["Zac" := hand]} "Zac"] (Num 301)))
           (mkState ["Zac"] {["Zac" := hand]} "t1") 3 eq_refl).
Defined.

(** X25: in every state that the server reaches from its initial state,
    reading the state does not throw: it returns the roster, the results
    and the time stamp as they are, with a leaderboard. *)
Theorem get_state_returns (trim : string → string) (lc : string → string → Z)
    (reset_secret admin_password : string) (now : string) (tokens : gset string)
    (app : App) :
  rtc (step trim lc reset_secret admin_password)
    (mkApp (initial_state now) tokens) app →
  ∃ winner,
    get_state lc (app_state app) =
      Returns (mkStateBody (friends (app_state app)) (results (app_state app))
                 (updatedAt (app_state app)) winner).
Proof.
  intros Hreach.
  pose proof (round_ok_reachable _ _ _ _ _ _ Hreach (round_ok_initial now)) as (Hne & _).
  unfold get_state.
  destruct (computeLeaders _ _ _) as [w|e] eqn:Hw; [eauto|].
  apply computeLeaders_throws in Hw. contradiction.
Qed.

Lemma get_state_returns_witness :
  ∃ winner,
    get_state code_compare (initial_state "t0") =
      Returns (mkStateBody DEFAULT_FRIENDS ∅ "t0" winner).
Proof.
  exact (get_state_returns ascii_trim code_compare "" "buck" "t0" ∅
           (mkApp (initial_state "t0") ∅) (rtc_refl _ _)).
Defined.

(** ** The draws a roll reads *)

Lemma allocate_draws (fuel : nat) (rnd : Random) (used : gset string)
    (i : nat) (tries : Z) (a : Allocation) (i' : nat) (tries' : Z) :
  allocate fuel rnd used i tries = Some (a, i', tries') →
  ∃ k, i' = (i + 3 * k)%nat ∧ 0 < tries' - tries ≤ Z.of_nat k ∧
       (a = Exceeded → 20000 < tries').
Proof.
  revert i tries. induction fuel as [|fuel IH]; intros i tries; [discriminate|].
  cbn [allocate].
  destruct (rollCeeLo (S fuel) rnd i) as [[h i1]|] eqn:Hroll; [|discriminate].
  apply rollCeeLo_passes in Hroll as (k & _ & -> & _).
  destruct (tries + 1 >? 20000) eqn:Hcap.
  - intros [= <- <- <-]. exists (S k). split; [reflexivity|]. split; lia.
  - destruct (bool_decide _).
    + intros Hrun. apply IH in Hrun as (k2 & -> & Htries & Hexc).
      exists (S k + k2)%nat. split; [lia|]. split; [lia|exact Hexc].
    + intros [= <- <- <-]. exists (S k). split; [reflexivity|].
      split; [lia|discriminate].
Qed.

(** X26: a roll reads the draws three at a time. A request that is refused
    with 400 or 409 reads none, a roll that succeeds reads at least one
    throw of three dice, and the error of the cap comes only after 20001
    throws or more. *)
Theorem roll_reads_triples (trim : string → string) (lc : string → string → Z)
    (body_name : option string) (now : string) (fuel : nat) (rnd : Random)
    (i : nat) (state : State)
    (c : completion (response RollBody)) (state' : State) (i' : nat) :
  roll trim lc body_name now fuel rnd i state = Some (c, state', i') →
  ∃ k, i' = (i + 3 * k)%nat ∧
    match c with
    | Returns (Fail status _) => if status =? 500 then 20001 ≤ Z.of_nat k else k = 0%nat
    | Returns (Ok _) => (1 ≤ k)%nat
    | Throws _ => False
    end.
Proof.
  unfold roll.
  destruct (bool_decide (trim (default "" body_name) ∈ friends state)) eqn:Hin; cbn [negb].
  2: { intros [= <- <- <-]. exists 0%nat. split; [lia|reflexivity]. }
  apply bool_decide_eq_true in Hin.
  destruct (bool_decide (is_Some _)).
  { intros [= <- <- <-]. exists 0%nat. split; [lia|reflexivity]. }
  destruct (MAX_UNIQUE <=? size _)%nat.
  { intros [= <- <- <-]. exists 0%nat. split; [lia|reflexivity]. }
  destruct (allocate _ _ _ _ _) as [[[[h key|] i1] tries]|] eqn:Hrun; [| |discriminate];
    apply allocate_draws in Hrun as (k & -> & Htries & Hexc).
  - destruct (computeLeaders _ _ _) as [w|e] eqn:Hw.
    + intros [= <- <- <-]. exists k. split; [reflexivity|]. lia.
    + apply computeLeaders_throws in Hw. simpl in Hw.
      rewrite Hw in Hin. apply elem_of_nil in Hin. destruct Hin.
  - intros [= <- <- <-]. exists k. split; [reflexivity|].
    specialize (Hexc eq_refl). simpl. lia.
Qed.

Lemma roll_reads_triples_witness :
  ∃ k, 3%nat = (0 + 3 * k)%nat ∧ (1 ≤ k)%nat.
Proof.
  exact (roll_reads_triples ascii_trim code_compare (Some "Zac") "t1" 2 rnd_ones 0
           (mkState ["Zac"; "Will"] ∅ "t0")
           (Returns (Ok (mkRollBody (mkHand [1; 1; 1] "Triple 1" "triple" (Some 1) None)
                           "t1" NotReady)))
           (mkState ["Zac"; "Will"]
              {["Zac" := mkHand [1; 1; 1] "Triple 1" "triple" (Some 1) None]} "t1")
           3 eq_refl).
Defined.
